(** * MessageCaller back-end (server/back-end.js): a shallow embedding

    The server keeps four in-memory [Map]s ([users], [messages],
    [activeConnections], [signInRequests]) and reacts to socket events.  Every
    handler runs to completion, so a handler is a function from the state
    before to the state after, together with the events it emits.  A handler
    that dereferences [undefined] throws a [TypeError]; that is the [None]
    result below.

    Identifiers, connection identifiers and message texts are [string]s,
    sequences of 8-bit characters: exact for the ASCII strings the server
    deals in (user numbers are digits, Socket.IO identifiers are letters,
    digits, [-] and [_]).  The codec works on single UTF-16 code units and
    has its own string type. *)

From Stdlib Require Import Ascii NArith ZArith DecimalString DecimalN.
From stdpp Require Import gmap strings list fin_maps.

Local Open Scope N_scope.

(** ** JavaScript truthiness of the values the handlers test *)

(** [!s] is [false] exactly for a non-empty string; [undefined] and [null]
    are falsy. *)
Definition truthy (v : option string) : bool :=
  match v with
  | Some s => negb (String.eqb s "")
  | None => false
  end.

(** [v || d] on an optional string. *)
Definition or_default (v : option string) (d : string) : string :=
  match v with
  | Some s => if String.eqb s "" then d else s
  | None => d
  end.

(** [v || 0] on an optional number. *)
Definition or_zero (v : option N) : N :=
  match v with
  | Some n => n
  | None => 0
  end.

(** [n.toString()] for a non-negative integer: its decimal digits, without
    leading zeros. *)
Definition toString (n : N) : string := NilZero.string_of_uint (N.to_uint n).

(** ** Data model *)

(** A value of the [users] map. [socketId] is [null] ([None]) when the user
    is offline. *)
Record User := mkUser {
  number : string;
  nickname : string;
  lastname : string;
  photo : string;
  age : N;
  email : string;
  phone : string;
  birthday : string;
  socketId : option string
}.

Definition set_socketId (v : option string) (u : User) : User :=
  mkUser (number u) (nickname u) (lastname u) (photo u) (age u) (email u)
         (phone u) (birthday u) v.

(** An element of a chat log. *)
Record Message := mkMessage {
  from : string;
  to : string;
  text : string;
  timestamp : N
}.

(** A value of the [signInRequests] map.  The target number is recorded under
    the field [number] in the source; it is [req_number] here because [User]
    already has a [number] projection. *)
Record SignInRequest := mkSignInRequest {
  req_number : string;
  requestingSocketId : string
}.

(** The payload of [register]: every field may be absent. *)
Record UserData := mkUserData {
  ud_number : option string;
  ud_nickname : option string;
  ud_lastname : option string;
  ud_photo : option string;
  ud_age : option N;
  ud_email : option string;
  ud_phone : option string;
  ud_birthday : option string
}.

(** The payload of [updateProfile]: [None] is [undefined]. *)
Record ProfileData := mkProfileData {
  pd_nickname : option string;
  pd_lastname : option string;
  pd_photo : option string;
  pd_age : option N;
  pd_email : option string;
  pd_phone : option string;
  pd_birthday : option string
}.

(** ** The [users] map

    [users] is scanned in insertion order by [Array.from(users.values())], so
    it is kept as the insertion-ordered list of its entries.  [Map.set] on a
    present key replaces the value in place, on an absent key it appends. *)
Definition users_map := list (string * User).

Fixpoint users_get (k : string) (m : users_map) : option User :=
  match m with
  | [] => None
  | (k', v) :: m' => if String.eqb k' k then Some v else users_get k m'
  end.

Fixpoint users_set (k : string) (v : User) (m : users_map) : users_map :=
  match m with
  | [] => [(k, v)]
  | (k', v') :: m' =>
      if String.eqb k' k then (k, v) :: m' else (k', v') :: users_set k v m'
  end.

Definition users_values (m : users_map) : list User := map snd m.

(** [Array.from(users.values()).find(u => u.number === n)] *)
Definition find_by_number (n : string) (m : users_map) : option User :=
  List.find (fun u => String.eqb (number u) n) (users_values m).

(** ** Server state *)
Record state := mkState {
  users : users_map;
  messages : gmap string (list Message);
  activeConnections : gmap string string;
  signInRequests : gmap string SignInRequest
}.

Definition init : state := mkState [] ∅ ∅ ∅.

(** ** Events sent to clients *)
Inductive server_event :=
  | error (message : string)
  | signInRequest (requestId : string)
  | awaitingAuthorization (message : string)
  | registered (userId : string) (user : User)
  | signInApproved (userId : string) (user : User)
  | signInDenied
  | profileUpdated (user : User)
  | userFound (n nick last ph : string)
  | userNotFound (n : string)
  | messageSent (m : Message)
  | messageReceived (m : Message)
  | chatHistory (targetNumber : string) (msgs : list Message)
  | incomingCall (frm nick last ph offer : string)
  | callAnswered (frm answer : string)
  | iceCandidate (frm : option string) (candidate : string)
  | callEnded (frm : option string).

(** [socket.emit(e)] answers the connection whose event is being handled;
    [io.to(id).emit(e)] addresses the connection [id]. *)
Inductive emission :=
  | SocketEmit (e : server_event)
  | IoTo (id : string) (e : server_event).

(** The connection an emission is addressed to, [sid] being the connection
    whose event is handled. *)
Definition recipient (sid : string) (x : emission) : string :=
  match x with
  | SocketEmit _ => sid
  | IoTo id _ => id
  end.

Definition payload (x : emission) : server_event :=
  match x with
  | SocketEmit e => e
  | IoTo _ e => e
  end.

(** ** The identifier check of [register] *)

Definition is_digit (c : ascii) : bool :=
  (48 <=? N_of_ascii c) && (N_of_ascii c <=? 57).

(** Matches [\d{n}] at the head of [s] and returns the rest. *)
Fixpoint match_digits (n : nat) (s : string) : option string :=
  match n with
  | O => Some s
  | S n' =>
      match s with
      | String c s' => if is_digit c then match_digits n' s' else None
      | EmptyString => None
      end
  end.

(** [/^\d{4}$/.test(s)] *)
Definition test_4digits (s : string) : bool :=
  match match_digits 4 s with
  | Some EmptyString => true
  | _ => false
  end.

(** [!number || number.length !== 4 || !/^\d{4}$/.test(number)] *)
Definition invalid_number (n : option string) : bool :=
  match n with
  | None => true
  | Some s =>
      negb (truthy (Some s))
      || negb (Nat.eqb (String.length s) 4)
      || negb (test_4digits s)
  end.

(** ** The chat key *)

(** [Array.prototype.sort] without a comparator orders strings by code
    units.  Equal strings cannot be told apart, so every sorting algorithm
    yields the same array; insertion sort is used here. *)
Fixpoint sort_insert (x : string) (l : list string) : list string :=
  match l with
  | [] => [x]
  | y :: l' => if String.ltb x y then x :: l else y :: sort_insert x l'
  end.

Fixpoint sort (l : list string) : list string :=
  match l with
  | [] => []
  | x :: l' => sort_insert x (sort l')
  end.

(** [l.join(sep)] *)
Fixpoint join (sep : string) (l : list string) : string :=
  match l with
  | [] => ""
  | [x] => x
  | x :: l' => x +:+ sep +:+ join sep l'
  end.

(** [[a, b].sort().join('-')] *)
Definition chatId (a b : string) : string := join "-" (sort [a; b]).

(** ** Handlers

    [sid] is [socket.id], [now] is the value of [Date.now()]. *)

Definition set_users (v : users_map) (st : state) : state :=
  mkState v (messages st) (activeConnections st) (signInRequests st).
Definition set_messages (v : gmap string (list Message)) (st : state) : state :=
  mkState (users st) v (activeConnections st) (signInRequests st).
Definition set_activeConnections (v : gmap string string) (st : state)
  : state :=
  mkState (users st) (messages st) v (signInRequests st).
Definition set_signInRequests (v : gmap string SignInRequest) (st : state)
  : state :=
  mkState (users st) (messages st) (activeConnections st) v.

Definition result : Type := option (state * list emission).

(** In the conflict branch [existingUser.socketId] is truthy, hence a string:
    [default ""] only unwraps it.  In the last branch [users.get(userId)]
    reads back the record stored one statement earlier. *)
Definition register (sid : string) (now : N) (userData : UserData)
    (st : state) : result :=
  match ud_number userData with
  | None =>
      Some (st, [SocketEmit (error "Number must be exactly 4 digits")])
  | Some number =>
      if invalid_number (Some number) then
        Some (st, [SocketEmit (error "Number must be exactly 4 digits")])
      else
        let userId := number in
        match users_get userId (users st) with
        | Some existingUser =>
            if truthy (socketId existingUser) then
              let requestId := toString now in
              let st1 :=
                set_signInRequests
                  (<[requestId := mkSignInRequest number sid]>
                     (signInRequests st)) st in
              Some (st1,
                    [IoTo (default "" (socketId existingUser))
                          (signInRequest requestId);
                     SocketEmit (awaitingAuthorization
                       "Waiting for authorization from your other device...")])
            else
              let existingUser1 := set_socketId (Some sid) existingUser in
              let st1 := set_users
                (users_set userId existingUser1 (users st)) st in
              let st2 := set_activeConnections
                (<[sid := userId]> (activeConnections st1)) st1 in
              Some (st2, [SocketEmit (registered userId existingUser1)])
        | None =>
            let created :=
              mkUser number
                     (or_default (ud_nickname userData) "User")
                     (or_default (ud_lastname userData) "")
                     (or_default (ud_photo userData) "")
                     (or_zero (ud_age userData))
                     (or_default (ud_email userData) "")
                     (or_default (ud_phone userData) "")
                     (or_default (ud_birthday userData) "")
                     (Some sid) in
            let st1 := set_users (users_set userId created (users st)) st in
            let st2 := set_activeConnections
              (<[sid := userId]> (activeConnections st1)) st1 in
            Some (st2,
                  [SocketEmit
                     (registered userId
                        (default created (users_get userId (users st2))))])
        end
  end.

Definition approveSignIn (sid : string) (requestId : string) (st : state)
    : result :=
  match signInRequests st !! requestId with
  | None => Some (st, [])
  | Some request =>
      match activeConnections st !! sid with
      | None => Some (st, [])
      | Some userId =>
          if negb (truthy (Some userId)) then Some (st, [])
          else
            match users_get userId (users st) with
            | None => None
            | Some user =>
                let user1 :=
                  set_socketId (Some (requestingSocketId request)) user in
                let st1 := set_users (users_set userId user1 (users st)) st in
                let st2 := set_activeConnections
                  (delete sid (activeConnections st1)) st1 in
                let st3 := set_activeConnections
                  (<[requestingSocketId request := userId]>
                     (activeConnections st2)) st2 in
                let st4 := set_signInRequests
                  (delete requestId (signInRequests st3)) st3 in
                Some (st4,
                      [IoTo (requestingSocketId request)
                            (signInApproved userId user1)])
            end
      end
  end.

Definition denySignIn (sid : string) (requestId : string) (st : state)
    : result :=
  match signInRequests st !! requestId with
  | None => Some (st, [])
  | Some request =>
      Some (set_signInRequests (delete requestId (signInRequests st)) st,
            [IoTo (requestingSocketId request) signInDenied])
  end.

(** [if (v !== undefined) field = v] *)
Definition assign {A} (v : option A) (old : A) : A :=
  match v with
  | Some x => x
  | None => old
  end.

Definition updateProfile (sid : string) (profileData : ProfileData)
    (st : state) : result :=
  match activeConnections st !! sid with
  | None => Some (st, [SocketEmit (error "Not registered")])
  | Some userId =>
      if negb (truthy (Some userId)) then
        Some (st, [SocketEmit (error "Not registered")])
      else
        match users_get userId (users st) with
        | None => None
        | Some user =>
            let user1 :=
              mkUser (number user)
                     (assign (pd_nickname profileData) (nickname user))
                     (assign (pd_lastname profileData) (lastname user))
                     (assign (pd_photo profileData) (photo user))
                     (assign (pd_age profileData) (age user))
                     (assign (pd_email profileData) (email user))
                     (assign (pd_phone profileData) (phone user))
                     (assign (pd_birthday profileData) (birthday user))
                     (socketId user) in
            Some (set_users (users_set userId user1 (users st)) st,
                  [SocketEmit (profileUpdated user1)])
        end
  end.

Definition getUserByNumber (sid : string) (n : string) (st : state) : result :=
  match find_by_number n (users st) with
  | Some user =>
      Some (st, [SocketEmit (userFound (number user) (nickname user)
                                       (lastname user) (photo user))])
  | None => Some (st, [SocketEmit (userNotFound n)])
  end.

(** [messages.has(chatId)] / [set(chatId, [])] / [get(chatId).push(message)]
    leave under [chatId] the previous log, or the empty one, followed by
    the message.  The mail notification (lines 278-310) runs after all the
    state changes and emissions given here and touches none of the four
    maps; it is [mailNotification] below. *)
Definition sendMessage (sid : string) (now : N) (to_ text_ : string)
    (st : state) : result :=
  match activeConnections st !! sid with
  | None => Some (st, [SocketEmit (error "Not registered")])
  | Some fromUserId =>
      if negb (truthy (Some fromUserId)) then
        Some (st, [SocketEmit (error "Not registered")])
      else
        match find_by_number to_ (users st) with
        | None => Some (st, [SocketEmit (error "Recipient not found")])
        | Some toUser =>
            let message := mkMessage fromUserId to_ text_ now in
            let chat := chatId fromUserId to_ in
            let log := default [] (messages st !! chat) in
            let st1 :=
              set_messages (<[chat := log ++ [message]]> (messages st)) st in
            Some (st1,
                  SocketEmit (messageSent message)
                  :: (if truthy (socketId toUser)
                      then [IoTo (default "" (socketId toUser))
                                 (messageReceived message)]
                      else []))
        end
  end.

Definition getChatHistory (sid : string) (targetNumber : string) (st : state)
    : result :=
  match activeConnections st !! sid with
  | None => Some (st, [SocketEmit (error "Not registered")])
  | Some userId =>
      if negb (truthy (Some userId)) then
        Some (st, [SocketEmit (error "Not registered")])
      else
        let chat := chatId userId targetNumber in
        let history := default [] (messages st !! chat) in
        Some (st, [SocketEmit (chatHistory targetNumber history)])
  end.

(** [toUser && toUser.socketId]: the connection to forward to, if any. *)
Definition live_socket (n : string) (st : state) : option string :=
  match find_by_number n (users st) with
  | Some toUser => if truthy (socketId toUser) then socketId toUser else None
  | None => None
  end.

Definition initiateCall (sid : string) (to_ offer : string) (st : state)
    : result :=
  match activeConnections st !! sid with
  | None => Some (st, [])
  | Some fromUserId =>
      if negb (truthy (Some fromUserId)) then Some (st, [])
      else
        match live_socket to_ st with
        | None => Some (st, [])
        | Some dest =>
            match users_get fromUserId (users st) with
            | None => None
            | Some fromUser =>
                Some (st,
                      [IoTo dest
                         (incomingCall fromUserId (nickname fromUser)
                            (lastname fromUser) (photo fromUser) offer)])
            end
        end
  end.

Definition answerCall (sid : string) (to_ answer : string) (st : state)
    : result :=
  match activeConnections st !! sid with
  | None => Some (st, [])
  | Some fromUserId =>
      if negb (truthy (Some fromUserId)) then Some (st, [])
      else
        match live_socket to_ st with
        | None => Some (st, [])
        | Some dest => Some (st, [IoTo dest (callAnswered fromUserId answer)])
        end
  end.

Definition iceCandidateHandler (sid : string) (to_ candidate : string)
    (st : state) : result :=
  match live_socket to_ st with
  | None => Some (st, [])
  | Some dest =>
      Some (st, [IoTo dest (iceCandidate (activeConnections st !! sid)
                                         candidate)])
  end.

Definition endCall (sid : string) (to_ : string) (st : state) : result :=
  match live_socket to_ st with
  | None => Some (st, [])
  | Some dest =>
      Some (st, [IoTo dest (callEnded (activeConnections st !! sid))])
  end.

Definition disconnect (sid : string) (st : state) : result :=
  match activeConnections st !! sid with
  | None => Some (st, [])
  | Some userId =>
      if negb (truthy (Some userId)) then Some (st, [])
      else
        let st1 :=
          match users_get userId (users st) with
          | Some user =>
              set_users
                (users_set userId (set_socketId None user) (users st)) st
          | None => st
          end in
        Some (set_activeConnections (delete sid (activeConnections st1)) st1,
              [])
  end.

(** ** The event surface *)
Inductive client_event :=
  | Register (userData : UserData)
  | ApproveSignIn (requestId : string)
  | DenySignIn (requestId : string)
  | UpdateProfile (profileData : ProfileData)
  | GetUserByNumber (n : string)
  | SendMessage (to_ text_ : string)
  | GetChatHistory (targetNumber : string)
  | InitiateCall (to_ offer : string)
  | AnswerCall (to_ answer : string)
  | IceCandidate (to_ candidate : string)
  | EndCall (to_ : string)
  | Disconnect.

(** One dispatched event: the connection it arrived on, the clock reading
    during its handler, and the event. *)
Record dispatch := mkDispatch {
  d_socket : string;
  d_now : N;
  d_event : client_event
}.

Definition handle (d : dispatch) (st : state) : result :=
  let sid := d_socket d in
  match d_event d with
  | Register userData => register sid (d_now d) userData st
  | ApproveSignIn requestId => approveSignIn sid requestId st
  | DenySignIn requestId => denySignIn sid requestId st
  | UpdateProfile profileData => updateProfile sid profileData st
  | GetUserByNumber n => getUserByNumber sid n st
  | SendMessage to_ text_ => sendMessage sid (d_now d) to_ text_ st
  | GetChatHistory targetNumber => getChatHistory sid targetNumber st
  | InitiateCall to_ offer => initiateCall sid to_ offer st
  | AnswerCall to_ answer => answerCall sid to_ answer st
  | IceCandidate to_ candidate => iceCandidateHandler sid to_ candidate st
  | EndCall to_ => endCall sid to_ st
  | Disconnect => disconnect sid st
  end.

(** The state after a sequence of events, handled one after the other. *)
Fixpoint run (ds : list dispatch) (st : state) : option state :=
  match ds with
  | [] => Some st
  | d :: ds' =>
      match handle d st with
      | Some (st', _) => run ds' st'
      | None => None
      end
  end.

(** Socket.IO connection identifiers are non-empty strings. *)
Definition well_formed (ds : list dispatch) : Prop :=
  Forall (fun d => d_socket d <> "") ds.

Definition reachable (st : state) : Prop :=
  exists ds, well_formed ds /\ run ds init = Some st.

(** ** The older copy of the server (second part of the source)

    It has no sign-in requests; its user records carry four fields and the
    socket.  Only its [register] handler differs in what it decides. *)
Module Legacy.

Record User := mkUser {
  number : string;
  nickname : string;
  lastname : string;
  photo : string;
  socketId : option string
}.

Record state := mkState {
  users : list (string * User);
  activeConnections : gmap string string
}.

Fixpoint users_set (k : string) (v : User) (m : list (string * User))
  : list (string * User) :=
  match m with
  | [] => [(k, v)]
  | (k', v') :: m' =>
      if String.eqb k' k then (k, v) :: m' else (k', v') :: users_set k v m'
  end.

Definition find_by_number (n : string) (m : list (string * User))
  : option User :=
  List.find (fun u => String.eqb (number u) n) (map snd m).

(** What the handler sends back on the registering connection. *)
Inductive reply :=
  | error (message : string)
  | registered (userId : string) (user : User).

Definition register (sid : string) (userData : UserData) (st : state)
  : state * reply :=
  match ud_number userData with
  | None => (st, error "Number must be exactly 4 digits")
  | Some n =>
      if invalid_number (Some n) then
        (st, error "Number must be exactly 4 digits")
      else
        let taken :=
          match find_by_number n (users st) with
          | Some existingUser =>
              negb (bool_decide (socketId existingUser = Some sid))
          | None => false
          end in
        if taken then (st, error "This number is already taken")
        else
          let created :=
            mkUser n (or_default (ud_nickname userData) "User")
                   (or_default (ud_lastname userData) "")
                   (or_default (ud_photo userData) "") (Some sid) in
          (mkState (users_set n created (users st))
                   (<[sid := n]> (activeConnections st)),
           registered n created)
  end.

Fixpoint users_get (k : string) (m : list (string * User)) : option User :=
  match m with
  | [] => None
  | (k', v) :: m' => if String.eqb k' k then Some v else users_get k m'
  end.

(** The [disconnect] handler of the older copy (it emits nothing). *)
Definition disconnect (sid : string) (st : state) : state :=
  match activeConnections st !! sid with
  | None => st
  | Some userId =>
      if negb (truthy (Some userId)) then st
      else
        let users1 :=
          match users_get userId (users st) with
          | Some user =>
              users_set userId
                (mkUser (number user) (nickname user) (lastname user)
                        (photo user) None)
                (users st)
          | None => users st
          end in
        mkState users1 (delete sid (activeConnections st))
  end.

End Legacy.

(** ** The numeric text codec

    A JavaScript string is the sequence of its UTF-16 code units.  Numbers
    are integers here; that is exact for everything below 2^53. *)
Module Codec.

Definition jsstring := list N.

(** The code units of a literal. *)
Definition units (s : string) : jsstring :=
  map N_of_ascii (String.list_ascii_of_string s).

(** [char.toUpperCase()] for a one-unit string.  The table is the ASCII
    one; code units from 128 on are returned unchanged, which is not what
    the Unicode tables do for all of them, so statements below are made
    for code units under 128 only. *)
Definition toUpperCase (char : N) : jsstring :=
  if (97 <=? char) && (char <=? 122) then [char - 32] else [char].

(** [s1 <= s2] on strings: by code units, a prefix being smaller. *)
Fixpoint str_leb (s1 s2 : jsstring) : bool :=
  match s1, s2 with
  | [], _ => true
  | _ :: _, [] => false
  | a :: s1', b :: s2' =>
      if a <? b then true else if b <? a then false else str_leb s1' s2'
  end.

(** [s.charCodeAt(0)]; the strings it is applied to are not empty. *)
Definition charCodeAt0 (s : jsstring) : N := hd 0 s.

(** The callback of [encodeToNumbers]. *)
Definition encodeChar (char : N) : jsstring :=
  let upper := toUpperCase char in
  if char =? 32 then units "0"
  else if str_leb (units "A") upper && str_leb upper (units "Z")
  then units (toString (charCodeAt0 upper - 64))
  else units (toString char).

(** [l.join(sep)] *)
Fixpoint join (sep : jsstring) (l : list jsstring) : jsstring :=
  match l with
  | [] => []
  | [x] => x
  | x :: l' => x ++ sep ++ join sep l'
  end.

(** [text.split('')] is the list of the code units of [text]. *)
Definition encodeToNumbers (text_ : jsstring) : jsstring :=
  join (units "-") (map encodeChar text_).

(** [s.split(sep)] for a one-unit separator. *)
Fixpoint split (sep : N) (s : jsstring) : list jsstring :=
  match s with
  | [] => [[]]
  | c :: s' =>
      if c =? sep then [] :: split sep s'
      else match split sep s' with
           | tok :: toks => (c :: tok) :: toks
           | [] => [[c]]
           end
  end.

(** White space skipped by [parseInt]. *)
Definition is_white_space (c : N) : bool :=
  (c =? 9) || (c =? 10) || (c =? 11) || (c =? 12) || (c =? 13)
  || (c =? 32) || (c =? 160) || (c =? 5760)
  || ((8192 <=? c) && (c <=? 8202))
  || (c =? 8232) || (c =? 8233) || (c =? 8239) || (c =? 8287)
  || (c =? 12288) || (c =? 65279).

Fixpoint skip_white_space (s : jsstring) : jsstring :=
  match s with
  | c :: s' => if is_white_space c then skip_white_space s' else s
  | [] => []
  end.

(** The value of a digit or letter in [parseInt]. *)
Definition digit_value (c : N) : option N :=
  if (48 <=? c) && (c <=? 57) then Some (c - 48)
  else if (97 <=? c) && (c <=? 122) then Some (c - 87)
  else if (65 <=? c) && (c <=? 90) then Some (c - 55)
  else None.

(** The longest prefix of digits of the radix, as a number; [None] when
    that prefix is empty and nothing was read before. *)
Fixpoint read_digits (radix : N) (acc : option N) (s : jsstring)
  : option N :=
  match s with
  | c :: s' =>
      match digit_value c with
      | Some d =>
          if d <? radix
          then read_digits radix (Some (radix * default 0 acc + d)) s'
          else acc
      | None => acc
      end
  | [] => acc
  end.

(** [parseInt(s)]; [None] is [NaN].  Leading white space is skipped, a
    sign is read, a prefix [0x] or [0X] selects radix 16, and the digits
    that follow are read as far as they go. *)
Definition parseInt (s : jsstring) : option Z :=
  let s1 := skip_white_space s in
  let sign :=
    match s1 with
    | c :: _ => if c =? 45 then (-1)%Z else 1%Z
    | [] => 1%Z
    end in
  let s2 :=
    match s1 with
    | c :: r => if (c =? 45) || (c =? 43) then r else s1
    | [] => s1
    end in
  let hex :=
    match s2 with
    | c :: x :: _ => (c =? 48) && ((x =? 120) || (x =? 88))
    | _ => false
    end in
  let radix := if hex then 16 else 10 in
  let s3 := if hex then drop 2 s2 else s2 in
  match read_digits radix None s3 with
  | Some v => Some (sign * Z.of_N v)%Z
  | None => None
  end.

(** [String.fromCharCode(n)]: the code unit [n] modulo 2^16, and 0 for
    [NaN]. *)
Definition fromCharCode (n : option Z) : jsstring :=
  match n with
  | Some z => [Z.to_N (z mod 65536)]
  | None => [0]
  end.

(** The callback of [decodeFromNumbers]. *)
Definition decodeToken (num : jsstring) : jsstring :=
  match parseInt num with
  | Some n =>
      if (n =? 0)%Z then units " "
      else if ((1 <=? n) && (n <=? 26))%Z then fromCharCode (Some (n + 64)%Z)
      else fromCharCode (Some n)
  | None => fromCharCode None
  end.

Definition decodeFromNumbers (encoded : jsstring) : jsstring :=
  concat (map decodeToken (split 45 encoded)).

(** The texts on which decoding undoes encoding: code units from 27 to
    127 that are not lower-case letters (the space is among them). *)
Definition round_trip_unit (c : N) : bool :=
  (27 <=? c) && (c <=? 127) && negb ((97 <=? c) && (c <=? 122)).

(** A decimal digit character. *)
Definition is_decimal_digit (c : N) : Prop := 48 <= c <= 57.
(** The number a code unit is written as. *)
Definition token_number (char : N) : N :=
  if char =? 32 then 0
  else if (65 <=? char) && (char <=? 90) then char - 64
  else if (97 <=? char) && (char <=? 122) then char - 96
  else char.

(** What decoding the encoding makes of a code unit under 128: NUL
    becomes a space, the control characters 1 to 26 become the letters A to
    Z, lower-case letters become upper-case, everything else stays. *)
Definition round_trip_image (c : N) : N :=
  if c =? 0 then 32
  else if c <=? 26 then c + 64
  else if (97 <=? c) && (c <=? 122) then c - 32
  else c.

(** The encoder with [toUpperCase] taken as a parameter: JavaScript's
    table covers all of Unicode and is not part of the program.  With the
    ASCII table above it is [encodeToNumbers]. *)
Definition encodeCharWith (toUpperCase_ : N -> jsstring) (char : N)
  : jsstring :=
  let upper := toUpperCase_ char in
  if char =? 32 then units "0"
  else if str_leb (units "A") upper && str_leb upper (units "Z")
  then units (toString (charCodeAt0 upper - 64))
  else units (toString char).

Definition encodeToNumbersWith (toUpperCase_ : N -> jsstring)
    (text_ : jsstring) : jsstring :=
  join (units "-") (map (encodeCharWith toUpperCase_) text_).

(** The code units that decoding the encoding gives back: the space; a
    unit whose upper-case form lies between "A" and "Z" and begins with
    the unit itself (the capitals A to Z); and a unit from 27 on whose
    upper-case form does not lie between "A" and "Z". *)
Definition comes_back (toUpperCase_ : N -> jsstring) (c : N) : bool :=
  (c =? 32)
  || (if str_leb (units "A") (toUpperCase_ c)
         && str_leb (toUpperCase_ c) (units "Z")
      then charCodeAt0 (toUpperCase_ c) =? c
      else (27 <=? c) && (c <? 65536)).

(** The decoder with [parseInt] taken as a parameter: JavaScript's result
    is a double, rounded from 2^53 on; [None] stands for a result that is
    not a finite number. *)
Definition decodeTokenWith (parseInt_ : jsstring -> option Z)
    (num : jsstring) : jsstring :=
  match parseInt_ num with
  | Some n =>
      if (n =? 0)%Z then units " "
      else if ((1 <=? n) && (n <=? 26))%Z then fromCharCode (Some (n + 64)%Z)
      else fromCharCode (Some n)
  | None => fromCharCode None
  end.

Definition decodeFromNumbersWith (parseInt_ : jsstring -> option Z)
    (encoded : jsstring) : jsstring :=
  concat (map (decodeTokenWith parseInt_) (split 45 encoded)).

(** A string of code units under 256 as a [string]. *)
Definition to_string (s : jsstring) : string :=
  String.string_of_list_ascii (map ascii_of_N s).

End Codec.

(** ** The two HTTP endpoints of the codec

    [POST /api/encode] and [POST /api/decode] read one field of the parsed
    JSON body. *)
Module Api.

(** The field as the handler sees it: missing, a string, or another JSON
    value (number, boolean, null, array, object), of which only the
    truthiness matters before [split] is called on it. *)
Inductive field :=
  | Absent
  | Str (s : Codec.jsstring)
  | Other (truthy_ : bool).

(** [!v] *)
Definition falsy (v : field) : bool :=
  match v with
  | Absent => true
  | Str s => match s with [] => true | _ => false end
  | Other b => negb b
  end.

(** What the handler does: answer 400 with an error, answer 200 with the
    result, or let the [TypeError] of [v.split] escape. *)
Inductive reply :=
  | BadRequest (error : string)
  | Encoded (encoded : Codec.jsstring)
  | Decoded (decoded : Codec.jsstring)
  | Throws.

Definition encode (text_ : field) : reply :=
  if falsy text_ then BadRequest "Text is required"
  else match text_ with
       | Str s => Encoded (Codec.encodeToNumbers s)
       | _ => Throws
       end.

(** The call of [decodeFromNumbers] is inside [try]; what is thrown
    becomes the answer "Invalid encoded format". *)
Definition decode (encoded : field) : reply :=
  if falsy encoded then BadRequest "Encoded text is required"
  else match encoded with
       | Str s => Decoded (Codec.decodeFromNumbers s)
       | _ => BadRequest "Invalid encoded format"
       end.

End Api.

(** ** The mail notification of [sendMessage] (lines 278-310)

    It runs at the end of the handler, after the state changes and the
    emissions modelled by [sendMessage], and changes none of the maps. *)

Record MailOptions := mkMailOptions {
  mail_from : string;
  mail_to : string;
  subject : string;
  html : string
}.

(** White space removed by [trim], among characters below 256. *)
Definition is_trim_space (c : ascii) : bool :=
  let n := N_of_ascii c in
  ((9 <=? n) && (n <=? 13)) || (n =? 32) || (n =? 160).

Fixpoint trim_start (s : string) : string :=
  match s with
  | String c s' => if is_trim_space c then trim_start s' else s
  | EmptyString => EmptyString
  end.

(** [s.trim()] *)
Definition trim (s : string) : string :=
  String.rev (trim_start (String.rev (trim_start s))).

Definition quote : string := String "034"%char EmptyString.
Definition newline : string := String "010"%char EmptyString.

(** The template literal of the [html] field; [ind10] and [ind12] are its
    indentation. *)
Definition ind10 : string := "          ".
Definition ind12 : string := "            ".

Definition mail_html (fromUser : User) (text_ encodedMessage : string)
  : string :=
  newline
  +:+ ind10 +:+ "<div style=" +:+ quote
  +:+ "font-family: Arial, sans-serif; padding: 20px;" +:+ quote +:+ ">"
  +:+ newline
  +:+ ind12 +:+ "<h2>New Message from " +:+ nickname fromUser +:+ " "
  +:+ or_default (Some (lastname fromUser)) "" +:+ "</h2>" +:+ newline
  +:+ ind12 +:+ "<p><strong>User Code:</strong> " +:+ number fromUser
  +:+ "</p>" +:+ newline
  +:+ ind12 +:+ "<hr>" +:+ newline
  +:+ ind12 +:+ "<p><strong>Message (Original):</strong></p>" +:+ newline
  +:+ ind12 +:+ "<p style=" +:+ quote
  +:+ "background: #f0f0f0; padding: 15px; border-radius: 5px;" +:+ quote
  +:+ ">" +:+ text_ +:+ "</p>" +:+ newline
  +:+ ind12 +:+ "<hr>" +:+ newline
  +:+ ind12 +:+ "<p><strong>Encoded Message:</strong></p>" +:+ newline
  +:+ ind12 +:+ "<p style=" +:+ quote
  +:+ "background: #e8f5e9; padding: 15px; border-radius: 5px; "
  +:+ "font-family: monospace;" +:+ quote
  +:+ ">" +:+ encodedMessage +:+ "</p>" +:+ newline
  +:+ ind12 +:+ "<hr>" +:+ newline
  +:+ ind12 +:+ "<p style=" +:+ quote +:+ "color: #666; font-size: 12px;"
  +:+ quote +:+ ">Reply to this message on MessageCaller app</p>" +:+ newline
  +:+ ind10 +:+ "</div>" +:+ newline
  +:+ "        ".

(** What the mail branch does for the event [sendMessage] handled in state
    [st]: [Some None] when the handler has returned before it or the
    recipient has no address, [Some (Some m)] when [m] is handed to the
    mail transport, [None] when [fromUser.nickname] throws because
    [users.get(fromUserId)] is undefined.  [EMAIL_USER] is the environment
    variable, [toUpperCase_] the table used by [encodeToNumbers]. *)
Definition mailNotification (EMAIL_USER : option string)
    (toUpperCase_ : N -> Codec.jsstring) (sid : string) (to_ text_ : string)
    (st : state) : option (option MailOptions) :=
  match activeConnections st !! sid with
  | None => Some None
  | Some fromUserId =>
      if negb (truthy (Some fromUserId)) then Some None
      else
        match find_by_number to_ (users st) with
        | None => Some None
        | Some toUser =>
            if truthy (Some (email toUser))
               && negb (String.eqb (trim (email toUser)) "")
            then
              let encodedMessage :=
                Codec.encodeToNumbersWith toUpperCase_ (Codec.units text_) in
              match users_get fromUserId (users st) with
              | None => None
              | Some fromUser =>
                  Some (Some
                    (mkMailOptions
                       (or_default EMAIL_USER "messagecaller@example.com")
                       (email toUser)
                       ("Message from " +:+ nickname fromUser +:+ " ("
                        +:+ number fromUser +:+ ")")
                       (mail_html fromUser text_
                          (Codec.to_string encodedMessage))))
              end
            else Some None
        end
  end.

(** ** Predicates and states used in the statements *)

(** The profile fields of a record: everything but the number and the
    connection. *)
Definition profile (u : User)
  : string * string * string * N * string * string * string :=
  (nickname u, lastname u, photo u, age u, email u, phone u, birthday u).

(** The recipient named by a call-signaling event. *)
Definition call_target (e : client_event) : option string :=
  match e with
  | InitiateCall to_ _ | AnswerCall to_ _ | IceCandidate to_ _
  | EndCall to_ => Some to_
  | _ => None
  end.

(** An [updateProfile] payload with no field present. *)
Definition empty_profileData : ProfileData :=
  mkProfileData None None None None None None None.

(** "Exactly four ASCII digits", said without reference to the handler. *)
Definition four_ascii_digits (s : string) : Prop :=
  String.length s = 4%nat /\
  forall c, In c (String.list_ascii_of_string s) ->
            48 <= N_of_ascii c <= 57.

(** A [register] payload that carries a number and nothing else. *)
Definition userData_of (n : string) : UserData :=
  mkUserData (Some n) None None None None None None None.

(** A record is stored under its own number, four ASCII digits, and the
    connection it names, if any, has a non-empty identifier. *)
Definition stored_ok (k : string) (u : User) : Prop :=
  number u = k /\ four_ascii_digits k /\ socketId u <> Some "".

(** What the four maps satisfy in every state the server can be in. *)
Record Inv (st : state) : Prop := mkInv {
  inv_users : forall k u, In (k, u) (users st) -> stored_ok k u;
  (** a bound connection is bound to an existing user whose record names
      that connection *)
  inv_bound :
    forall sid uid, activeConnections st !! sid = Some uid ->
      sid <> "" /\ four_ascii_digits uid /\
      exists u, users_get uid (users st) = Some u /\ socketId u = Some sid;
  (** a log holds messages between the two users its key is made of *)
  inv_logs :
    forall key log, messages st !! key = Some log ->
      forall m, In m log ->
        key = chatId (from m) (to m) /\
        four_ascii_digits (from m) /\ four_ascii_digits (to m);
  (** a pending request names the connection that asked *)
  inv_requests :
    forall rid r, signInRequests st !! rid = Some r ->
      requestingSocketId r <> ""
}.

(** Exposes the fields of a state written with the setters. *)
Ltac unfold_setters :=
  unfold set_users, set_messages, set_activeConnections, set_signInRequests;
  cbn [users messages activeConnections signInRequests].

(** Concrete instances: each state comes with a sequence of events that
    leads to it from [init]. *)
Definition plain_user (n : string) (s : option string) : User :=
  mkUser n "User" "" "" 0 "" "" "" s.

Definition trace_offline : list dispatch :=
  [mkDispatch "A" 1 (Register (userData_of "1111"));
   mkDispatch "A" 2 Disconnect].

Definition st_offline : state :=
  mkState [("1111", plain_user "1111" None)] ∅ ∅ ∅.

Definition trace_two_users : list dispatch :=
  [mkDispatch "A" 1 (Register (userData_of "1111"));
   mkDispatch "B" 2 (Register (userData_of "2222"))].

Definition st_two_users : state :=
  mkState [("1111", plain_user "1111" (Some "A"));
           ("2222", plain_user "2222" (Some "B"))]
          ∅ (<["B" := "2222"]> (<["A" := "1111"]> ∅)) ∅.

(** Proves [reachable st] for a concrete [st] from the events [ds]. *)
Ltac by_trace ds :=
  exists ds; split; [repeat constructor; discriminate|vm_compute; reflexivity].

Definition trace_chat : list dispatch :=
  trace_two_users
  ++ [mkDispatch "C" 3 (Register (userData_of "3333"));
      mkDispatch "A" 9 (SendMessage "2222" "hi")].

Definition st_chat : state :=
  mkState [("1111", plain_user "1111" (Some "A"));
           ("2222", plain_user "2222" (Some "B"));
           ("3333", plain_user "3333" (Some "C"))]
          (<["1111-2222" := [mkMessage "1111" "2222" "hi" 9]]> ∅)
          (<["C" := "3333"]> (<["B" := "2222"]> (<["A" := "1111"]> ∅))) ∅.

Definition trace_pending : list dispatch :=
  trace_two_users ++ [mkDispatch "C" 3 (Register (userData_of "1111"))].

Definition st_pending : state :=
  mkState [("1111", plain_user "1111" (Some "A"));
           ("2222", plain_user "2222" (Some "B"))]
          ∅ (<["B" := "2222"]> (<["A" := "1111"]> ∅))
          (<["3" := mkSignInRequest "1111" "C"]> ∅).

Definition trace_shared : list dispatch :=
  [mkDispatch "A" 1 (Register (userData_of "1111"));
   mkDispatch "A" 2 (Register (userData_of "2222"))].

Definition st_shared : state :=
  mkState [("1111", plain_user "1111" (Some "A"));
           ("2222", plain_user "2222" (Some "A"))]
          ∅ (<["A" := "2222"]> ∅) ∅.

Definition trace_handed_over : list dispatch :=
  trace_two_users
  ++ [mkDispatch "B" 3 (Register (userData_of "1111"));
      mkDispatch "A" 4 (ApproveSignIn "3")].

Definition st_handed_over : state :=
  mkState [("1111", plain_user "1111" (Some "B"));
           ("2222", plain_user "2222" (Some "B"))]
          ∅ (<["B" := "1111"]> ∅) ∅.

Definition trace_offline_peer : list dispatch :=
  trace_two_users ++ [mkDispatch "B" 3 Disconnect].

Definition st_offline_peer : state :=
  mkState [("1111", plain_user "1111" (Some "A"));
           ("2222", plain_user "2222" None)]
          ∅ (<["A" := "1111"]> ∅) ∅.

(** Case analysis on the comparisons of code units in sight. *)
Ltac split_tests :=
  repeat match goal with
         | |- context [N.eqb ?a ?b] => destruct (N.eqb_spec a b); simpl in *
         | |- context [N.leb ?a ?b] => destruct (N.leb_spec a b); simpl in *
         | _ : context [N.eqb ?a ?b] |- _ =>
             destruct (N.eqb_spec a b); simpl in *
         | _ : context [N.leb ?a ?b] |- _ =>
             destruct (N.leb_spec a b); simpl in *
         end.

Definition trace_stale : list dispatch :=
  trace_shared ++ [mkDispatch "A" 3 Disconnect].

Definition st_stale : state :=
  mkState [("1111", plain_user "1111" (Some "A"));
           ("2222", plain_user "2222" None)]
          ∅ ∅ ∅.

Definition trace_shared_and_third : list dispatch :=
  trace_shared ++ [mkDispatch "B" 3 (Register (userData_of "3333"))].

Definition st_shared_and_third : state :=
  mkState [("1111", plain_user "1111" (Some "A"));
           ("2222", plain_user "2222" (Some "A"));
           ("3333", plain_user "3333" (Some "B"))]
          ∅ (<["B" := "3333"]> (<["A" := "2222"]> ∅)) ∅.

(** * Properties *)

(** ** The [users] map behaves as a map *)

Lemma users_get_set_eq k v m : users_get k (users_set k v m) = Some v.
Proof.
  induction m as [|[k' v'] m IH]; simpl.
  - by rewrite String.eqb_refl.
  - destruct (String.eqb_spec k' k) as [->|Hne]; simpl.
    + by rewrite String.eqb_refl.
    + destruct (String.eqb_spec k' k); [done|exact IH].
Qed.

Lemma users_get_set_ne k k' v m :
  k <> k' -> users_get k' (users_set k v m) = users_get k' m.
Proof.
  intros Hne. induction m as [|[k0 v0] m IH]; simpl.
  - destruct (String.eqb_spec k k'); [done|reflexivity].
  - destruct (String.eqb_spec k0 k) as [->|Hk]; simpl.
    + destruct (String.eqb_spec k k'); [done|reflexivity].
    + destruct (String.eqb_spec k0 k'); [reflexivity|exact IH].
Qed.

Lemma users_get_In k v m : users_get k m = Some v -> In (k, v) m.
Proof.
  induction m as [|[k' v'] m IH]; simpl; [done|].
  destruct (String.eqb_spec k' k) as [->|Hne]; intros H.
  - left. congruence.
  - right. auto.
Qed.

Lemma users_set_In k v m k' v' :
  In (k', v') (users_set k v m) -> (k' = k /\ v' = v) \/ In (k', v') m.
Proof.
  induction m as [|[k0 v0] m IH]; simpl.
  - intros [H|[]]. left. split; congruence.
  - destruct (String.eqb_spec k0 k) as [->|Hne]; simpl.
    + intros [H|H]; [left; split; congruence|right; right; exact H].
    + intros [H|H]; [right; left; exact H|].
      destruct (IH H) as [?|?]; [left|right; right]; assumption.
Qed.

(** When every record is stored under its own number, the scan by number
    and the lookup by key find the same record. *)
Lemma find_by_number_keyed m n :
  (forall k u, In (k, u) m -> number u = k) ->
  find_by_number n m = users_get n m.
Proof.
  unfold find_by_number, users_values.
  induction m as [|[k v] m IH]; simpl; intros Hk; [reflexivity|].
  rewrite (Hk k v) by (left; reflexivity).
  destruct (String.eqb k n); [reflexivity|].
  apply IH. intros k' u' Hin. apply Hk. right. exact Hin.
Qed.

Lemma find_by_number_absent m n :
  (forall k u, In (k, u) m -> number u <> n) -> find_by_number n m = None.
Proof.
  unfold find_by_number, users_values.
  induction m as [|[k v] m IH]; simpl; intros Hk; [reflexivity|].
  destruct (String.eqb_spec (number v) n) as [He|_].
  - destruct (Hk k v (or_introl eq_refl) He).
  - apply IH. intros k' u' Hin. apply (Hk k' u'). right. exact Hin.
Qed.

Lemma find_by_number_sound m n u :
  find_by_number n m = Some u -> number u = n /\ exists k, In (k, u) m.
Proof.
  unfold find_by_number, users_values.
  induction m as [|[k v] m IH]; simpl; [done|].
  destruct (String.eqb_spec (number v) n) as [He|_].
  - intros [= <-]. split; [exact He|]. exists k. left. reflexivity.
  - intros H. destruct (IH H) as [? [k' ?]]. split; [done|].
    exists k'. right. assumption.
Qed.

(** ** Identifiers *)

Lemma is_digit_spec c : is_digit c = true <-> 48 <= N_of_ascii c <= 57.
Proof.
  unfold is_digit. rewrite andb_true_iff, !N.leb_le. reflexivity.
Qed.

Lemma invalid_number_spec s :
  invalid_number (Some s) = false <-> four_ascii_digits s.
Proof.
  unfold invalid_number, four_ascii_digits, test_4digits. split.
  - intros H. apply orb_false_elim in H as [H Ht].
    apply orb_false_elim in H as [_ Hl].
    apply negb_false_iff, Nat.eqb_eq in Hl. split; [exact Hl|].
    destruct s as [|c1 [|c2 [|c3 [|c4 [|c5 s]]]]]; try discriminate Hl.
    simpl in Ht. simpl.
    destruct (is_digit c1) eqn:H1; [|discriminate Ht].
    destruct (is_digit c2) eqn:H2; [|discriminate Ht].
    destruct (is_digit c3) eqn:H3; [|discriminate Ht].
    destruct (is_digit c4) eqn:H4; [|discriminate Ht].
    intros c [<-|[<-|[<-|[<-|[]]]]]; by apply is_digit_spec.
  - intros [Hl Hd].
    destruct s as [|c1 [|c2 [|c3 [|c4 [|c5 s]]]]]; try discriminate Hl.
    simpl in Hd. simpl.
    assert (is_digit c1 = true) as -> by (apply is_digit_spec, Hd; auto).
    assert (is_digit c2 = true) as -> by (apply is_digit_spec, Hd; auto).
    assert (is_digit c3 = true) as -> by (apply is_digit_spec, Hd; auto 6).
    assert (is_digit c4 = true) as -> by (apply is_digit_spec, Hd; auto 6).
    reflexivity.
Qed.

Lemma four_ascii_digits_length s :
  four_ascii_digits s -> String.length s = 4%nat.
Proof. by intros [? _]. Qed.

Lemma four_ascii_digits_truthy s :
  four_ascii_digits s -> truthy (Some s) = true.
Proof. intros [Hl _]. by destruct s. Qed.

(** ** Registration *)

(** C6: a [register] whose number is absent or is not exactly four ASCII
    digits answers the caller with the error "Number must be exactly 4
    digits"; the state after the call is the state before it, so no user is
    created and no binding changes. *)
Theorem register_rejects_malformed_number sid now userData st :
  (forall s, ud_number userData = Some s -> ~ four_ascii_digits s) ->
  register sid now userData st
  = Some (st, [SocketEmit (error "Number must be exactly 4 digits")]).
Proof.
  intros Hbad. unfold register.
  destruct (ud_number userData) as [s|] eqn:Hn; [|reflexivity].
  destruct (invalid_number (Some s)) eqn:Hinv; [reflexivity|].
  apply invalid_number_spec in Hinv. destruct (Hbad s eq_refl Hinv).
Qed.

Lemma register_rejects_malformed_number_witness :
  register "s1" 7 (userData_of "12a4") init
  = Some (init, [SocketEmit (error "Number must be exactly 4 digits")]).
Proof.
  apply register_rejects_malformed_number.
  intros s [= <-] [_ Hd].
  specialize (Hd "a"%char). simpl in Hd.
  assert (48 <= 97 <= 57) as [_ H] by (apply Hd; auto).
  vm_compute in H. apply H. reflexivity.
Defined.

(** ** What holds in every state the server can be in *)

Lemma Inv_init : Inv init.
Proof. split; simpl; intros *; try rewrite lookup_empty; done. Qed.

Lemma users_set_keyed k0 v m :
  (forall k u, In (k, u) m -> stored_ok k u) ->
  stored_ok k0 v ->
  forall k u, In (k, u) (users_set k0 v m) -> stored_ok k u.
Proof.
  intros Hm Hv k u Hin.
  destruct (users_set_In _ _ _ _ _ Hin) as [[-> ->]|Hold]; auto.
Qed.

Lemma Inv_get st k u :
  Inv st -> users_get k (users st) = Some u -> stored_ok k u.
Proof. intros HI Hget. apply (inv_users _ HI). by apply users_get_In. Qed.

Lemma truthy_Some s : truthy (Some s) = true <-> s <> "".
Proof.
  simpl. destruct (String.eqb_spec s ""); simpl; split; congruence.
Qed.

Lemma falsy_socket o sid : truthy o = false -> o = Some sid -> sid = "".
Proof.
  intros Hf ->. simpl in Hf. apply negb_false_iff in Hf.
  by apply String.eqb_eq.
Qed.

(** Binding connection [sid] to the user [uid] whose record [v] names
    [sid], when no other connection is bound to [uid]. *)
Lemma Inv_bind st sid uid v :
  Inv st -> sid <> "" -> four_ascii_digits uid ->
  number v = uid -> socketId v = Some sid ->
  (forall sid', sid' <> sid -> activeConnections st !! sid' <> Some uid) ->
  Inv (mkState (users_set uid v (users st)) (messages st)
               (<[sid := uid]> (activeConnections st)) (signInRequests st)).
Proof.
  intros [Hu Hb Hl Hr] Hsid Hvalid Hn Hs Hfree. split; simpl.
  - apply users_set_keyed; [done|].
    split; [done|split; [done|]]. rewrite Hs. congruence.
  - intros sid' uid' Hlook.
    destruct (decide (sid = sid')) as [<-|Hne].
    + rewrite lookup_insert_eq in Hlook. injection Hlook as <-.
      split; [done|split; [done|]]. exists v. by rewrite users_get_set_eq.
    + rewrite lookup_insert_ne in Hlook by done.
      destruct (Hb _ _ Hlook) as (? & ? & u & Hget & Hsock).
      split; [done|split; [done|]]. exists u. split; [|done].
      rewrite users_get_set_ne; [done|].
      intros <-. by apply (Hfree sid').
  - exact Hl.
  - exact Hr.
Qed.

Lemma register_preserves sid now userData st st' out :
  Inv st -> sid <> "" ->
  register sid now userData st = Some (st', out) -> Inv st'.
Proof.
  intros HI Hsid. unfold register.
  destruct (ud_number userData) as [n|]; [|by intros [= <- _]].
  destruct (invalid_number (Some n)) eqn:Hinv; [by intros [= <- _]|].
  apply invalid_number_spec in Hinv.
  destruct (users_get n (users st)) as [existingUser|] eqn:Hget.
  - destruct (truthy (socketId existingUser)) eqn:Hlive.
    + intros [= <- _]. destruct HI as [Hu Hb Hl Hr]. split; simpl; try done.
      intros rid r Hlook.
      destruct (decide (toString now = rid)) as [<-|Hne].
      * rewrite lookup_insert_eq in Hlook. by injection Hlook as <-.
      * rewrite lookup_insert_ne in Hlook by done. by eapply Hr.
    + intros [= <- _]. unfold_setters. apply Inv_bind; try done.
      * by destruct (Inv_get _ _ _ HI Hget) as [? _].
      * intros sid' Hne Hlook.
        destruct (inv_bound _ HI _ _ Hlook) as (Hne' & _ & u & Hu & Hs).
        rewrite Hget in Hu. injection Hu as <-.
        by apply (falsy_socket _ _ Hlive) in Hs.
  - intros [= <- _]. unfold_setters. apply Inv_bind; try done.
    intros sid' Hne Hlook.
    destruct (inv_bound _ HI _ _ Hlook) as (_ & _ & u & Hu & _). congruence.
Qed.

Lemma approveSignIn_preserves sid requestId st st' out :
  Inv st -> approveSignIn sid requestId st = Some (st', out) -> Inv st'.
Proof.
  intros HI. unfold approveSignIn.
  destruct (signInRequests st !! requestId) as [request|] eqn:Hreq;
    [|by intros [= <- _]].
  destruct (activeConnections st !! sid) as [userId|] eqn:Hac;
    [|by intros [= <- _]].
  destruct (negb (truthy (Some userId))); [by intros [= <- _]|].
  destruct (users_get userId (users st)) as [user|] eqn:Hget; [|done].
  intros [= <- _]. simpl.
  destruct (inv_bound _ HI _ _ Hac) as (Hsid & Hvalid & u & Hu & Hs).
  rewrite Hget in Hu. injection Hu as <-.
  pose proof (inv_requests _ HI _ _ Hreq) as Hrs.
  destruct (Inv_get _ _ _ HI Hget) as (Hn & _ & _).
  split; simpl.
  - apply users_set_keyed; [apply HI|].
    split; [done|split; [done|]]. simpl. congruence.
  - intros sid' uid' Hlook.
    destruct (decide (requestingSocketId request = sid')) as [<-|Hne].
    + rewrite lookup_insert_eq in Hlook. injection Hlook as <-.
      split; [done|split; [done|]].
      eexists. by rewrite users_get_set_eq.
    + rewrite lookup_insert_ne in Hlook by done.
      destruct (decide (sid = sid')) as [<-|Hne2];
        [by rewrite lookup_delete_eq in Hlook|].
      rewrite lookup_delete_ne in Hlook by done.
      destruct (inv_bound _ HI _ _ Hlook) as (? & ? & u' & Hu' & Hs').
      split; [done|split; [done|]]. exists u'. split; [|done].
      rewrite users_get_set_ne; [done|]. intros <-. congruence.
  - apply HI.
  - intros rid r Hlook.
    destruct (decide (requestId = rid)) as [<-|Hne];
      [by rewrite lookup_delete_eq in Hlook|].
    rewrite lookup_delete_ne in Hlook by done. by eapply (inv_requests _ HI).
Qed.

Lemma denySignIn_preserves sid requestId st st' out :
  Inv st -> denySignIn sid requestId st = Some (st', out) -> Inv st'.
Proof.
  intros HI. unfold denySignIn.
  destruct (signInRequests st !! requestId) as [request|];
    [|by intros [= <- _]].
  intros [= <- _]. destruct HI as [Hu Hb Hl Hr]. split; simpl; try done.
  intros rid r Hlook.
  destruct (decide (requestId = rid)) as [<-|Hne];
    [by rewrite lookup_delete_eq in Hlook|].
  rewrite lookup_delete_ne in Hlook by done. by eapply Hr.
Qed.

Lemma updateProfile_preserves sid profileData st st' out :
  Inv st -> updateProfile sid profileData st = Some (st', out) -> Inv st'.
Proof.
  intros HI. unfold updateProfile.
  destruct (activeConnections st !! sid) as [userId|] eqn:Hac;
    [|by intros [= <- _]].
  destruct (negb (truthy (Some userId))); [by intros [= <- _]|].
  destruct (users_get userId (users st)) as [user|] eqn:Hget; [|done].
  intros [= <- _]. unfold_setters.
  destruct (inv_bound _ HI _ _ Hac) as (Hsid & Hvalid & _).
  destruct (Inv_get _ _ _ HI Hget) as (Hn & _ & Hsock).
  split; simpl.
  - apply users_set_keyed; [apply HI|]. by split.
  - intros sid' uid' Hlook.
    destruct (inv_bound _ HI _ _ Hlook) as (? & ? & u' & Hu' & Hs').
    split; [done|split; [done|]].
    destruct (decide (userId = uid')) as [<-|Hne].
    + rewrite users_get_set_eq. eexists. split; [reflexivity|]. simpl.
      congruence.
    + rewrite users_get_set_ne by done. eauto.
  - apply HI.
  - apply HI.
Qed.

Lemma sendMessage_preserves sid now to_ text_ st st' out :
  Inv st -> sendMessage sid now to_ text_ st = Some (st', out) -> Inv st'.
Proof.
  intros HI. unfold sendMessage.
  destruct (activeConnections st !! sid) as [fromUserId|] eqn:Hac;
    [|by intros [= <- _]].
  destruct (negb (truthy (Some fromUserId))); [by intros [= <- _]|].
  destruct (find_by_number to_ (users st)) as [toUser|] eqn:Hfind;
    [|by intros [= <- _]].
  intros [= <- _]. unfold_setters.
  destruct (inv_bound _ HI _ _ Hac) as (_ & Hfrom & _).
  assert (four_ascii_digits to_) as Hto.
  { apply find_by_number_sound in Hfind as [Hn [k Hin]].
    apply (inv_users _ HI) in Hin as (Hk & Hv & _). congruence. }
  destruct HI as [Hu Hb Hl Hr]. split; simpl; try done.
  intros key log Hlook m Hin.
  destruct (decide (chatId fromUserId to_ = key)) as [<-|Hne].
  - rewrite lookup_insert_eq in Hlook. injection Hlook as <-.
    apply in_app_or in Hin as [Hin|[<-|[]]]; [|done].
    destruct (messages st !! chatId fromUserId to_) as [old|] eqn:Hold;
      simpl in Hin; [|done].
    by eapply Hl.
  - rewrite lookup_insert_ne in Hlook by done. by eapply Hl.
Qed.

Lemma disconnect_preserves sid st st' out :
  Inv st -> disconnect sid st = Some (st', out) -> Inv st'.
Proof.
  intros HI. unfold disconnect.
  destruct (activeConnections st !! sid) as [userId|] eqn:Hac;
    [|by intros [= <- _]].
  destruct (negb (truthy (Some userId))); [by intros [= <- _]|].
  destruct (inv_bound _ HI _ _ Hac) as (Hsid & Hvalid & user & Hget & Hs).
  rewrite Hget. intros [= <- _]. unfold_setters.
  destruct (Inv_get _ _ _ HI Hget) as (Hn & _ & _).
  split; simpl.
  - apply users_set_keyed; [apply HI|]. by split.
  - intros sid' uid' Hlook.
    destruct (decide (sid = sid')) as [<-|Hne];
      [by rewrite lookup_delete_eq in Hlook|].
    rewrite lookup_delete_ne in Hlook by done.
    destruct (inv_bound _ HI _ _ Hlook) as (? & ? & u' & Hu' & Hs').
    split; [done|split; [done|]]. exists u'. split; [|done].
    rewrite users_get_set_ne; [done|]. intros <-. congruence.
  - apply HI.
  - apply HI.
Qed.

(** The remaining handlers only read the state. *)
Lemma getUserByNumber_state sid n st st' out :
  getUserByNumber sid n st = Some (st', out) -> st' = st.
Proof.
  unfold getUserByNumber. destruct (find_by_number n (users st)); congruence.
Qed.

Lemma getChatHistory_state sid t st st' out :
  getChatHistory sid t st = Some (st', out) -> st' = st.
Proof.
  unfold getChatHistory. destruct (activeConnections st !! sid) as [u|];
    [destruct (negb (truthy (Some u)))|]; congruence.
Qed.

Lemma initiateCall_state sid to_ offer st st' out :
  initiateCall sid to_ offer st = Some (st', out) -> st' = st.
Proof.
  unfold initiateCall. destruct (activeConnections st !! sid) as [u|];
    [destruct (negb (truthy (Some u))); [congruence|]|congruence].
  destruct (live_socket to_ st); [|congruence].
  destruct (users_get u (users st)); congruence.
Qed.

Lemma answerCall_state sid to_ answer st st' out :
  answerCall sid to_ answer st = Some (st', out) -> st' = st.
Proof.
  unfold answerCall. destruct (activeConnections st !! sid) as [u|];
    [destruct (negb (truthy (Some u))); [congruence|]|congruence].
  destruct (live_socket to_ st); congruence.
Qed.

Lemma iceCandidateHandler_state sid to_ candidate st st' out :
  iceCandidateHandler sid to_ candidate st = Some (st', out) -> st' = st.
Proof.
  unfold iceCandidateHandler. destruct (live_socket to_ st); congruence.
Qed.

Lemma endCall_state sid to_ st st' out :
  endCall sid to_ st = Some (st', out) -> st' = st.
Proof. unfold endCall. destruct (live_socket to_ st); congruence. Qed.

Lemma handle_preserves d st st' out :
  Inv st -> d_socket d <> "" -> handle d st = Some (st', out) -> Inv st'.
Proof.
  intros HI Hsid. unfold handle. destruct (d_event d); intros H.
  - by eapply register_preserves.
  - by eapply approveSignIn_preserves.
  - by eapply denySignIn_preserves.
  - by eapply updateProfile_preserves.
  - by apply getUserByNumber_state in H as ->.
  - by eapply sendMessage_preserves.
  - by apply getChatHistory_state in H as ->.
  - by apply initiateCall_state in H as ->.
  - by apply answerCall_state in H as ->.
  - by apply iceCandidateHandler_state in H as ->.
  - by apply endCall_state in H as ->.
  - by eapply disconnect_preserves.
Qed.

Lemma run_preserves ds : forall st st',
  Inv st -> well_formed ds -> run ds st = Some st' -> Inv st'.
Proof.
  induction ds as [|d ds IH]; simpl; intros st st' HI Hwf.
  - by intros [= <-].
  - apply Forall_cons in Hwf as [Hd Hwf].
    destruct (handle d st) as [[st1 out]|] eqn:Hh; [|done].
    intros Hrun. eapply IH; [|done|done]. by eapply handle_preserves.
Qed.

Lemma reachable_Inv st : reachable st -> Inv st.
Proof.
  intros (ds & Hwf & Hrun). eapply run_preserves; [apply Inv_init|done..].
Qed.

(** No handler throws in a state the server can be in. *)
Lemma handle_total d st : Inv st -> is_Some (handle d st).
Proof.
  intros HI. unfold handle.
  destruct (d_event d); simpl.
  - unfold register. repeat case_match; eauto.
  - unfold approveSignIn.
    destruct (signInRequests st !! requestId); [|eauto].
    destruct (activeConnections st !! d_socket d) as [u|] eqn:Hac; [|eauto].
    destruct (inv_bound _ HI _ _ Hac) as (_ & _ & ? & -> & _).
    destruct (negb (truthy (Some u))); eauto.
  - unfold denySignIn. case_match; eauto.
  - unfold updateProfile.
    destruct (activeConnections st !! d_socket d) as [u|] eqn:Hac; [|eauto].
    destruct (inv_bound _ HI _ _ Hac) as (_ & _ & ? & -> & _).
    destruct (negb (truthy (Some u))); eauto.
  - unfold getUserByNumber. case_match; eauto.
  - unfold sendMessage. repeat case_match; eauto.
  - unfold getChatHistory. repeat case_match; eauto.
  - unfold initiateCall.
    destruct (activeConnections st !! d_socket d) as [u|] eqn:Hac; [|eauto].
    destruct (inv_bound _ HI _ _ Hac) as (_ & _ & ? & -> & _).
    repeat case_match; eauto.
  - unfold answerCall. repeat case_match; eauto.
  - unfold iceCandidateHandler. case_match; eauto.
  - unfold endCall. case_match; eauto.
  - unfold disconnect. repeat case_match; eauto.
Qed.

Lemma stored_truthy k u :
  stored_ok k u ->
  truthy (socketId u)
  = match socketId u with Some _ => true | None => false end.
Proof.
  intros (_ & _ & Hs). destruct (socketId u) as [s|]; [|reflexivity].
  apply truthy_Some. congruence.
Qed.

Lemma reachable_st_offline : reachable st_offline.
Proof. by_trace trace_offline. Defined.

Lemma reachable_st_two_users : reachable st_two_users.
Proof. by_trace trace_two_users. Defined.

(** When the record of user [U] names no connection ([socketId] is null),
    a [register] for [U] from any
    connection [sid], whatever profile fields it carries, stores [sid] in the
    record of [U] and leaves every other field of it as it was, binds [sid]
    to [U], answers [registered] with that record, and leaves the pending
    requests (and the logs) untouched. *)
Theorem register_resumes_offline_user sid now userData st U u :
  reachable st ->
  ud_number userData = Some U ->
  users_get U (users st) = Some u ->
  socketId u = None ->
  let u1 := set_socketId (Some sid) u in
  let st1 := mkState (users_set U u1 (users st)) (messages st)
                     (<[sid := U]> (activeConnections st))
                     (signInRequests st) in
  register sid now userData st = Some (st1, [SocketEmit (registered U u1)])
  /\ users_get U (users st1) = Some u1
  /\ activeConnections st1 !! sid = Some U
  /\ signInRequests st1 = signInRequests st
  /\ (number u1, nickname u1, lastname u1, photo u1,
      age u1, email u1, phone u1, birthday u1)
     = (number u, nickname u, lastname u, photo u,
        age u, email u, phone u, birthday u).
Proof.
  intros Hreach Hn Hget Hoff u1 st1.
  pose proof (reachable_Inv _ Hreach) as HI.
  destruct (Inv_get _ _ _ HI Hget) as (_ & Hvalid & _).
  split; [|split; [|split; [|split]]].
  - unfold register. rewrite Hn.
    apply invalid_number_spec in Hvalid. rewrite Hvalid, Hget, Hoff. simpl.
    reflexivity.
  - simpl. apply users_get_set_eq.
  - simpl. apply lookup_insert_eq.
  - reflexivity.
  - reflexivity.
Qed.

Lemma register_resumes_offline_user_witness :
  register "B" 5
    (mkUserData (Some "1111") (Some "Mallory") None None None None None None)
    st_offline
  = Some (mkState [("1111", plain_user "1111" (Some "B"))] ∅
                  (<["B" := "1111"]> ∅) ∅,
          [SocketEmit (registered "1111" (plain_user "1111" (Some "B")))]).
Proof.
  refine (proj1 (register_resumes_offline_user "B" 5
           (mkUserData (Some "1111") (Some "Mallory") None None None None
                       None None)
           st_offline "1111" (plain_user "1111" None) _ _ _ _)).
  - exact reachable_st_offline.
  - reflexivity.
  - reflexivity.
  - reflexivity.
Defined.

(** The older copy of the handler refuses the same call: a stored record
    whose socket is [null] still counts as "taken". *)
Lemma legacy_register_refuses_offline_user sid userData st U u :
  ud_number userData = Some U ->
  four_ascii_digits U ->
  Legacy.find_by_number U (Legacy.users st) = Some u ->
  Legacy.socketId u = None ->
  Legacy.register sid userData st
  = (st, Legacy.error "This number is already taken").
Proof.
  intros Hn Hvalid Hfind Hoff. unfold Legacy.register. rewrite Hn.
  apply invalid_number_spec in Hvalid. rewrite Hvalid, Hfind, Hoff.
  reflexivity.
Qed.

(** C5: when the record of [U] names a live connection [C1], a [register]
    for [U] from a connection [C2] writes one entry into the pending
    requests, under the identifier made from the clock, naming [U] and [C2];
    it emits [signInRequest] to [C1] and [awaitingAuthorization] to [C2];
    users, bindings and logs stay as they were.  When no request was pending
    under that identifier, there is exactly one pending request more. *)
Theorem register_conflict_creates_request C1 C2 now userData st U u :
  reachable st ->
  ud_number userData = Some U ->
  users_get U (users st) = Some u ->
  socketId u = Some C1 ->
  let requestId := toString now in
  let pending := <[requestId := mkSignInRequest U C2]> (signInRequests st) in
  register C2 now userData st
  = Some (mkState (users st) (messages st) (activeConnections st) pending,
          [IoTo C1 (signInRequest requestId);
           SocketEmit (awaitingAuthorization
             "Waiting for authorization from your other device...")])
  /\ pending !! requestId = Some (mkSignInRequest U C2)
  /\ (forall rid, rid <> requestId -> pending !! rid = signInRequests st !! rid)
  /\ (signInRequests st !! requestId = None ->
      size pending = S (size (signInRequests st))).
Proof.
  intros Hreach Hn Hget Hlive requestId pending.
  pose proof (reachable_Inv _ Hreach) as HI.
  pose proof (Inv_get _ _ _ HI Hget) as Hok.
  pose proof (stored_truthy _ _ Hok) as Ht. rewrite Hlive in Ht.
  destruct Hok as (_ & Hvalid & _).
  split; [|split; [|split]].
  - unfold register. rewrite Hn.
    apply invalid_number_spec in Hvalid. rewrite Hvalid, Hget, Hlive, Ht.
    reflexivity.
  - apply lookup_insert_eq.
  - intros rid Hne. by apply lookup_insert_ne.
  - intros Hfresh. by apply map_size_insert_None.
Qed.

Lemma register_conflict_creates_request_witness :
  register "C" 3 (userData_of "1111") st_two_users
  = Some (mkState (users st_two_users) ∅ (activeConnections st_two_users)
                  (<["3" := mkSignInRequest "1111" "C"]> ∅),
          [IoTo "A" (signInRequest "3");
           SocketEmit (awaitingAuthorization
             "Waiting for authorization from your other device...")]).
Proof.
  refine (proj1 (register_conflict_creates_request "A" "C" 3
           (userData_of "1111") st_two_users "1111"
           (plain_user "1111" (Some "A")) _ _ _ _)).
  - exact reachable_st_two_users.
  - reflexivity.
  - reflexivity.
  - reflexivity.
Defined.

(** ** The chat key *)

Lemma chatId_unfold a b :
  chatId a b
  = if String.ltb a b then a +:+ "-" +:+ b else b +:+ "-" +:+ a.
Proof. unfold chatId. simpl. destruct (String.ltb a b); reflexivity. Qed.

Lemma chatId_comm a b : chatId a b = chatId b a.
Proof.
  rewrite !chatId_unfold. unfold String.ltb.
  rewrite (String.compare_antisym a b).
  destruct (String.compare b a) eqn:Hc; simpl; try reflexivity.
  apply String.compare_eq_iff in Hc. by subst.
Qed.

Lemma string_app_length a b :
  String.length (a +:+ b) = (String.length a + String.length b)%nat.
Proof. induction a as [|c a IH]; simpl; [reflexivity|]. by rewrite IH. Qed.

(** Two concatenations whose heads have the same length agree part by
    part. *)
Lemma string_app_inj_head a b x y :
  String.length a = String.length b ->
  a +:+ x = b +:+ y -> a = b /\ x = y.
Proof.
  revert b. induction a as [|c a IH]; intros [|d b] Hlen; simpl in *;
    try discriminate Hlen.
  - auto.
  - intros [= -> Hrest]. destruct (IH b) as [-> ->]; auto.
Qed.

Lemma string_app_inj_tail a b x y :
  String.length x = String.length y ->
  a +:+ x = b +:+ y -> a = b /\ x = y.
Proof.
  intros Hlen Heq. apply string_app_inj_head; [|exact Heq].
  apply (f_equal String.length) in Heq. rewrite !string_app_length in Heq.
  lia.
Qed.

(** A key that puts a four-character identifier [r] before or after the
    separator can only equal the key of a pair of four-character
    identifiers that contains [r], whatever stands on the other side. *)
Lemma key_participant r other a b :
  String.length r = 4%nat -> String.length a = 4%nat ->
  String.length b = 4%nat ->
  r +:+ "-" +:+ other = chatId a b \/ other +:+ "-" +:+ r = chatId a b ->
  r = a \/ r = b.
Proof.
  intros Hr Ha Hb. rewrite chatId_unfold.
  assert (forall x y, String.length x = 4%nat ->
            r +:+ "-" +:+ other = x +:+ "-" +:+ y -> r = x) as Hhead.
  { intros x y Hx Heq.
    apply string_app_inj_head in Heq as [? _]; congruence. }
  assert (forall x y, String.length y = 4%nat ->
            other +:+ "-" +:+ r = x +:+ "-" +:+ y -> r = y) as Htail.
  { intros x y Hy Heq.
    change (other +:+ "-" +:+ r) with (other +:+ ("-" +:+ r)) in Heq.
    change (x +:+ "-" +:+ y) with (x +:+ ("-" +:+ y)) in Heq.
    apply string_app_inj_tail in Heq as [_ Heq];
      [by apply (String.app_inj "-") in Heq
      |rewrite !string_app_length; congruence]. }
  destruct (String.ltb a b); intros [Heq|Heq]; eauto.
Qed.

Lemma chatId_participant r t a b :
  String.length r = 4%nat -> String.length a = 4%nat ->
  String.length b = 4%nat ->
  chatId r t = chatId a b -> r = a \/ r = b.
Proof.
  intros Hr Ha Hb Heq. apply (key_participant r t a b); try done.
  rewrite chatId_unfold in Heq. destruct (String.ltb r t); auto.
Qed.

(** ** Messages *)

(** C7: [sendMessage] from a connection that is not bound answers the error
    "Not registered"; from a bound connection, to a number no stored user
    has, it answers the error "Recipient not found".  Either way only that
    error is emitted and the state after the call is the state before it:
    nothing is appended to any log. *)
Theorem sendMessage_failures sid now to_ text_ st :
  reachable st ->
  activeConnections st !! sid = None
  \/ (forall k u, In (k, u) (users st) -> number u <> to_) ->
  exists msg,
    sendMessage sid now to_ text_ st = Some (st, [SocketEmit (error msg)])
    /\ (activeConnections st !! sid = None -> msg = "Not registered")
    /\ (activeConnections st !! sid <> None -> msg = "Recipient not found").
Proof.
  intros Hreach Hfail. pose proof (reachable_Inv _ Hreach) as HI.
  unfold sendMessage.
  destruct (activeConnections st !! sid) as [f|] eqn:Hac.
  - destruct Hfail as [?|Hnone]; [done|].
    destruct (inv_bound _ HI _ _ Hac) as (_ & Hvalid & _).
    rewrite (four_ascii_digits_truthy _ Hvalid). simpl.
    rewrite (find_by_number_absent _ _ Hnone).
    exists "Recipient not found". by repeat split.
  - exists "Not registered". by repeat split.
Qed.

Lemma sendMessage_failures_witness :
  exists msg,
    sendMessage "A" 9 "9999" "hi" st_two_users
    = Some (st_two_users, [SocketEmit (error msg)])
    /\ (activeConnections st_two_users !! "A" = None -> msg = "Not registered")
    /\ (activeConnections st_two_users !! "A" <> None ->
        msg = "Recipient not found").
Proof.
  apply (sendMessage_failures "A" 9 "9999" "hi" st_two_users).
  - exact reachable_st_two_users.
  - right. simpl. intros k u [[= <- <-]|[[= <- <-]|[]]]; discriminate.
Defined.

Lemma getChatHistory_bound sid t st r :
  Inv st -> activeConnections st !! sid = Some r ->
  getChatHistory sid t st
  = Some (st, [SocketEmit
                 (chatHistory t (default [] (messages st !! chatId r t)))]).
Proof.
  intros HI Hac. unfold getChatHistory. rewrite Hac.
  destruct (inv_bound _ HI _ _ Hac) as (_ & Hvalid & _).
  by rewrite (four_ascii_digits_truthy _ Hvalid).
Qed.

Lemma sendMessage_bound sid now to_ text_ st f toUser :
  Inv st -> activeConnections st !! sid = Some f ->
  users_get to_ (users st) = Some toUser ->
  sendMessage sid now to_ text_ st
  = Some (set_messages
            (<[chatId f to_ :=
                 default [] (messages st !! chatId f to_)
                 ++ [mkMessage f to_ text_ now]]> (messages st)) st,
          SocketEmit (messageSent (mkMessage f to_ text_ now))
          :: match socketId toUser with
             | Some dest =>
                 [IoTo dest (messageReceived (mkMessage f to_ text_ now))]
             | None => []
             end).
Proof.
  intros HI Hac Hget. unfold sendMessage. rewrite Hac.
  destruct (inv_bound _ HI _ _ Hac) as (_ & Hvalid & _).
  rewrite (four_ascii_digits_truthy _ Hvalid). simpl.
  rewrite find_by_number_keyed, Hget
    by (intros k u Hin; by destruct (inv_users _ HI _ _ Hin)).
  rewrite (stored_truthy _ _ (Inv_get _ _ _ HI Hget)).
  by destruct (socketId toUser).
Qed.

(** After a successful [sendMessage] the log of the pair, as either side
    reads it, is the old log followed by the message. *)
Lemma sendMessage_then_history sid now to_ text_ st f toUser :
  Inv st ->
  activeConnections st !! sid = Some f ->
  users_get to_ (users st) = Some toUser ->
  let message := mkMessage f to_ text_ now in
  let log := default [] (messages st !! chatId f to_) ++ [message] in
  let st1 := mkState (users st) (<[chatId f to_ := log]> (messages st))
                     (activeConnections st) (signInRequests st) in
  sendMessage sid now to_ text_ st
  = Some (st1,
          SocketEmit (messageSent message)
          :: match socketId toUser with
             | Some dest => [IoTo dest (messageReceived message)]
             | None => []
             end)
  /\ getChatHistory sid to_ st1
     = Some (st1, [SocketEmit (chatHistory to_ log)])
  /\ (forall sid2, activeConnections st !! sid2 = Some to_ ->
        getChatHistory sid2 f st1
        = Some (st1, [SocketEmit (chatHistory f log)])).
Proof.
  intros HI Hac Hget message log st1.
  pose proof (sendMessage_bound sid now to_ text_ st f toUser HI Hac Hget)
    as Hsend.
  assert (Inv st1) as HI1 by (by eapply sendMessage_preserves).
  split; [exact Hsend|split].
  - rewrite (getChatHistory_bound sid to_ st1 f HI1 Hac). simpl.
    by rewrite lookup_insert_eq.
  - intros sid2 Hac2.
    rewrite (getChatHistory_bound sid2 f st1 to_ HI1 Hac2). simpl.
    by rewrite (chatId_comm to_ f), lookup_insert_eq.
Qed.

(** A [sendMessage] from a connection bound to [f], to the number of an
    existing user, appends the message [{from: f, to, text, timestamp}] to
    the log under the key of the pair and changes nothing else; it emits
    [messageSent] to the sender, followed by [messageReceived] to the
    connection named in the recipient's record exactly when there is one.
    Afterwards the history of the pair, asked for by the sender or by any
    connection bound to the recipient, ends with that message. *)
Theorem sendMessage_appends_and_delivers sid now to_ text_ st f toUser :
  reachable st ->
  activeConnections st !! sid = Some f ->
  users_get to_ (users st) = Some toUser ->
  let message := mkMessage f to_ text_ now in
  let log := default [] (messages st !! chatId f to_) ++ [message] in
  let st1 := mkState (users st) (<[chatId f to_ := log]> (messages st))
                     (activeConnections st) (signInRequests st) in
  sendMessage sid now to_ text_ st
  = Some (st1,
          SocketEmit (messageSent message)
          :: match socketId toUser with
             | Some dest => [IoTo dest (messageReceived message)]
             | None => []
             end)
  /\ (forall key, key <> chatId f to_ ->
        messages st1 !! key = messages st !! key)
  /\ getChatHistory sid to_ st1
     = Some (st1, [SocketEmit (chatHistory to_ log)])
  /\ (forall sid2, activeConnections st !! sid2 = Some to_ ->
        getChatHistory sid2 f st1
        = Some (st1, [SocketEmit (chatHistory f log)])).
Proof.
  intros Hreach Hac Hget message log st1.
  pose proof (reachable_Inv _ Hreach) as HI.
  destruct (sendMessage_then_history sid now to_ text_ st f toUser HI Hac
              Hget) as (Hsend & Hown & Hpeer).
  split; [exact Hsend|split; [|split; [exact Hown|exact Hpeer]]].
  intros key Hne. simpl. by apply lookup_insert_ne.
Qed.

Lemma sendMessage_appends_and_delivers_witness :
  sendMessage "A" 9 "2222" "hi" st_two_users
  = Some (mkState (users st_two_users)
                  (<["1111-2222" := [mkMessage "1111" "2222" "hi" 9]]> ∅)
                  (activeConnections st_two_users) ∅,
          [SocketEmit (messageSent (mkMessage "1111" "2222" "hi" 9));
           IoTo "B" (messageReceived (mkMessage "1111" "2222" "hi" 9))]).
Proof.
  refine (proj1 (sendMessage_appends_and_delivers "A" 9 "2222" "hi"
                   st_two_users "1111" (plain_user "2222" (Some "B")) _ _ _)).
  - exact reachable_st_two_users.
  - reflexivity.
  - reflexivity.
Defined.

(** C9: the chat key does not depend on the order of its two arguments.
    Hence, when [a] (on connection [sa]) sends a first message to [b] (bound
    on connection [sb]), the history [a] asks for with [b] and the history
    [b] asks for with [a] are the same one-element list holding that
    message. *)
Theorem chatId_symmetric_history :
  (forall a b, chatId a b = chatId b a)
  /\ (forall st sa sb now a b text_ toUser,
        reachable st ->
        activeConnections st !! sa = Some a ->
        activeConnections st !! sb = Some b ->
        users_get b (users st) = Some toUser ->
        messages st !! chatId a b = None ->
        exists st1 out,
          sendMessage sa now b text_ st = Some (st1, out)
          /\ getChatHistory sa b st1
             = Some (st1, [SocketEmit
                             (chatHistory b [mkMessage a b text_ now])])
          /\ getChatHistory sb a st1
             = Some (st1, [SocketEmit
                             (chatHistory a [mkMessage a b text_ now])])).
Proof.
  split; [exact chatId_comm|].
  intros st sa sb now a b text_ toUser Hreach Hsa Hsb Hget Hempty.
  destruct (sendMessage_then_history sa now b text_ st a toUser
              (reachable_Inv _ Hreach) Hsa Hget) as (Hsend & Hown & Hpeer).
  rewrite Hempty in *. simpl in *.
  eexists _, _. split; [exact Hsend|]. split; [exact Hown|by apply Hpeer].
Qed.

Lemma chatId_symmetric_history_witness :
  exists st1 out,
    sendMessage "A" 9 "2222" "hi" st_two_users = Some (st1, out)
    /\ getChatHistory "A" "2222" st1
       = Some (st1, [SocketEmit
                       (chatHistory "2222"
                          [mkMessage "1111" "2222" "hi" 9])])
    /\ getChatHistory "B" "1111" st1
       = Some (st1, [SocketEmit
                       (chatHistory "1111"
                          [mkMessage "1111" "2222" "hi" 9])]).
Proof.
  apply (proj2 chatId_symmetric_history st_two_users "A" "B" 9 "1111" "2222"
           "hi" (plain_user "2222" (Some "B"))).
  - exact reachable_st_two_users.
  - reflexivity.
  - reflexivity.
  - reflexivity.
  - reflexivity.
Defined.

Lemma reachable_st_chat : reachable st_chat.
Proof. by_trace trace_chat. Defined.

(** C10: in a state the server can be in, a connection bound to user [r]
    that asks for a chat history, with whatever target argument [t], is
    answered with a list in which every message is from [r] or to [r]. *)
Theorem getChatHistory_only_own_conversations sid t st r :
  reachable st ->
  activeConnections st !! sid = Some r ->
  exists msgs,
    getChatHistory sid t st = Some (st, [SocketEmit (chatHistory t msgs)])
    /\ forall m, In m msgs -> from m = r \/ to m = r.
Proof.
  intros Hreach Hac. pose proof (reachable_Inv _ Hreach) as HI.
  exists (default [] (messages st !! chatId r t)).
  split; [by apply getChatHistory_bound|].
  intros m Hin.
  destruct (messages st !! chatId r t) as [log|] eqn:Hlog; [|destruct Hin].
  destruct (inv_logs _ HI _ _ Hlog m Hin) as (Hkey & Hfrom & Hto).
  destruct (inv_bound _ HI _ _ Hac) as (_ & Hr & _).
  destruct (chatId_participant r t (from m) (to m)) as [->| ->];
    auto using four_ascii_digits_length.
Qed.

Lemma getChatHistory_only_own_conversations_witness :
  exists msgs,
    getChatHistory "B" "1111" st_chat
    = Some (st_chat, [SocketEmit (chatHistory "1111" msgs)])
    /\ forall m, In m msgs -> from m = "2222" \/ to m = "2222".
Proof.
  apply (getChatHistory_only_own_conversations "B" "1111" st_chat "2222").
  - exact reachable_st_chat.
  - reflexivity.
Defined.

(** ** Sign-in hand-off *)

Lemma approveSignIn_noop sid requestId st :
  signInRequests st !! requestId = None
  \/ activeConnections st !! sid = None ->
  approveSignIn sid requestId st = Some (st, []).
Proof.
  unfold approveSignIn. intros [->| ->]; [reflexivity|].
  by destruct (signInRequests st !! requestId).
Qed.

(** What an approval does once the request is known and the approving
    connection is bound: the user handed over is the one the approving
    connection is bound to; the number recorded in the request is not
    read. *)
Lemma approveSignIn_hands_over sid requestId st request userId user :
  Inv st ->
  signInRequests st !! requestId = Some request ->
  activeConnections st !! sid = Some userId ->
  users_get userId (users st) = Some user ->
  let user1 := set_socketId (Some (requestingSocketId request)) user in
  approveSignIn sid requestId st
  = Some (mkState (users_set userId user1 (users st)) (messages st)
                  (<[requestingSocketId request := userId]>
                     (delete sid (activeConnections st)))
                  (delete requestId (signInRequests st)),
          [IoTo (requestingSocketId request) (signInApproved userId user1)]).
Proof.
  intros HI Hreq Hac Hget user1. unfold approveSignIn.
  rewrite Hreq, Hac.
  destruct (inv_bound _ HI _ _ Hac) as (_ & Hvalid & _).
  rewrite (four_ascii_digits_truthy _ Hvalid). simpl. by rewrite Hget.
Qed.

(** Once [sid], the live connection of the request's target [U], has
    approved, a message sent to [U] is pushed to the requesting
    connection. *)
Lemma approveSignIn_then_delivery sid requestId st request U u st1 out :
  Inv st ->
  signInRequests st !! requestId = Some request ->
  req_number request = U ->
  activeConnections st !! sid = Some U ->
  users_get U (users st) = Some u ->
  approveSignIn sid requestId st = Some (st1, out) ->
  forall sender f now text_,
    activeConnections st1 !! sender = Some f ->
    exists st2,
      sendMessage sender now U text_ st1
      = Some (st2,
              [SocketEmit (messageSent (mkMessage f U text_ now));
               IoTo (requestingSocketId request)
                    (messageReceived (mkMessage f U text_ now))]).
Proof.
  intros HI Hreq HU Hac Hget Happ sender f now text_ Hsender.
  assert (Inv st1) as HI1 by (by eapply approveSignIn_preserves).
  rewrite (approveSignIn_hands_over _ _ _ _ _ _ HI Hreq Hac Hget) in Happ.
  injection Happ as <- _.
  eexists.
  rewrite (sendMessage_bound sender now U text_ _ f
             (set_socketId (Some (requestingSocketId request)) u) HI1 Hsender)
    by (simpl; apply users_get_set_eq).
  reflexivity.
Qed.

(** Two connections are never bound to the same user. *)
Lemma bound_connections_injective st s1 s2 uid :
  reachable st ->
  activeConnections st !! s1 = Some uid ->
  activeConnections st !! s2 = Some uid -> s1 = s2.
Proof.
  intros Hreach H1 H2. pose proof (reachable_Inv _ Hreach) as HI.
  destruct (inv_bound _ HI _ _ H1) as (_ & _ & u1 & Hu1 & Hs1).
  destruct (inv_bound _ HI _ _ H2) as (_ & _ & u2 & Hu2 & Hs2).
  congruence.
Qed.

Lemma reachable_st_pending : reachable st_pending.
Proof. by_trace trace_pending. Defined.

(** C1, at an input where the code departs from it: user 1111 is live on
    connection A, user 2222 on B, and C has asked to sign in as 1111
    (request "3").  B is not the live connection of 1111, yet its
    [approveSignIn] is not a no-op: the request is consumed, B loses its
    binding, and C is told it is signed in -- as 2222.  User 1111 stays on
    A. *)
Theorem approveSignIn_by_other_user :
  reachable st_pending
  /\ signInRequests st_pending !! "3" = Some (mkSignInRequest "1111" "C")
  /\ users_get "1111" (users st_pending) = Some (plain_user "1111" (Some "A"))
  /\ approveSignIn "B" "3" st_pending
     = Some (mkState [("1111", plain_user "1111" (Some "A"));
                      ("2222", plain_user "2222" (Some "C"))]
                     ∅ (<["C" := "2222"]> (<["A" := "1111"]> ∅)) ∅,
             [IoTo "C" (signInApproved "2222"
                          (plain_user "2222" (Some "C")))])
  /\ approveSignIn "B" "3" st_pending <> Some (st_pending, []).
Proof.
  split; [exact reachable_st_pending|].
  split; [reflexivity|]. split; [reflexivity|].
  split; [vm_compute; reflexivity|]. vm_compute. discriminate.
Qed.

Lemma reachable_st_shared : reachable st_shared.
Proof. by_trace trace_shared. Defined.

Lemma reachable_st_handed_over : reachable st_handed_over.
Proof. by_trace trace_handed_over. Defined.

(** The same happens through an approved hand-off to a connection that was
    bound to another user: B, bound to 2222, asks for 1111 and A approves;
    both records then name B. *)
Lemma hand_off_leaves_stale_record :
  reachable st_handed_over
  /\ users_get "1111" (users st_handed_over)
     = Some (plain_user "1111" (Some "B"))
  /\ users_get "2222" (users st_handed_over)
     = Some (plain_user "2222" (Some "B")).
Proof. split; [exact reachable_st_handed_over|]. split; reflexivity. Qed.

(** C2, at an input where the code departs from it: after connection A
    registers 1111 and then 2222, the records of both users name A as
    their connection, while A is bound to 2222 only.  A later [disconnect]
    of A clears the record of 2222 and leaves 1111 naming the closed
    connection. *)
Theorem one_connection_recorded_for_two_users :
  reachable st_shared
  /\ users_get "1111" (users st_shared) = Some (plain_user "1111" (Some "A"))
  /\ users_get "2222" (users st_shared) = Some (plain_user "2222" (Some "A"))
  /\ activeConnections st_shared !! "A" = Some "2222"
  /\ disconnect "A" st_shared
     = Some (mkState [("1111", plain_user "1111" (Some "A"));
                      ("2222", plain_user "2222" None)] ∅ ∅ ∅, []).
Proof.
  split; [exact reachable_st_shared|].
  repeat (split; [reflexivity|]). vm_compute. reflexivity.
Qed.

(** ** The codec *)

Section CodecProperties.
Import Codec.

Lemma units_cons a s :
  units (String a s) = N_of_ascii a :: units s.
Proof. reflexivity. Qed.

(** The digits written for [d] are decimal digit characters. *)
Lemma uint_units_digits d :
  Forall is_decimal_digit (units (NilEmpty.string_of_uint d)).
Proof.
  induction d; cbn [NilEmpty.string_of_uint]; [apply Forall_nil; done|..];
    rewrite units_cons; apply Forall_cons; (split; [|exact IHd]);
    unfold is_decimal_digit; simpl; lia.
Qed.

Lemma read_digit_step c acc s :
  is_decimal_digit c ->
  read_digits 10 acc (c :: s)
  = read_digits 10 (Some (10 * default 0 acc + (c - 48))) s.
Proof.
  intros [Hlo Hhi]. simpl. unfold digit_value.
  assert (andb (48 <=? c) (c <=? 57) = true) as ->.
  { apply andb_true_iff. split; apply N.leb_le; lia. }
  assert ((c - 48 <? 10) = true) as -> by (apply N.ltb_lt; lia).
  reflexivity.
Qed.

(** Reading the digits of [d] after [p] has been read gives what the
    standard conversion computes. *)
Lemma read_digits_acc d : forall p,
  read_digits 10 (Some (Npos p)) (units (NilEmpty.string_of_uint d))
  = Some (Npos (Pos.of_uint_acc d p)).
Proof.
  induction d; intros p; cbn [NilEmpty.string_of_uint Pos.of_uint_acc];
    [reflexivity|..];
    rewrite units_cons, read_digit_step
      by (unfold is_decimal_digit; simpl; lia);
    rewrite <- IHd; f_equal; f_equal; simpl; lia.
Qed.

Lemma read_digits_zero d :
  read_digits 10 (Some 0) (units (NilEmpty.string_of_uint d))
  = Some (N.of_uint d).
Proof.
  induction d; cbn [NilEmpty.string_of_uint Pos.of_uint N.of_uint];
    [reflexivity|..];
    rewrite units_cons, read_digit_step
      by (unfold is_decimal_digit; simpl; lia);
    [exact IHd|rewrite <- read_digits_acc; reflexivity..].
Qed.

Lemma toString_units n :
  exists c s, units (toString n) = c :: s
              /\ is_decimal_digit c /\ Forall is_decimal_digit s
              /\ read_digits 10 None (c :: s) = Some n.
Proof.
  unfold toString.
  assert (N.to_uint n <> Decimal.Nil) as Hnil.
  { destruct n; simpl; [discriminate|].
    apply DecimalPos.Unsigned.to_uint_nonnil. }
  assert (NilZero.string_of_uint (N.to_uint n)
          = NilEmpty.string_of_uint (N.to_uint n)) as ->.
  { unfold NilZero.string_of_uint. by destruct (N.to_uint n). }
  pose proof (uint_units_digits (N.to_uint n)) as Hall.
  pose proof (read_digits_zero (N.to_uint n)) as Hread.
  rewrite DecimalN.Unsigned.of_to in Hread.
  destruct (units (NilEmpty.string_of_uint (N.to_uint n))) as [|c s] eqn:Hu.
  - destruct (N.to_uint n); try done; discriminate Hu.
  - apply Forall_cons in Hall as [Hc Hs].
    exists c, s. split; [reflexivity|split; [exact Hc|split; [exact Hs|]]].
    rewrite read_digit_step in * by done. exact Hread.
Qed.

Lemma digit_not_white_space c :
  is_decimal_digit c -> is_white_space c = false.
Proof.
  intros [Hlo Hhi]. unfold is_white_space.
  repeat (apply orb_false_intro);
    try (apply N.eqb_neq; lia).
  apply andb_false_iff. left. apply N.leb_gt. lia.
Qed.

(** [parseInt] reads back what [toString] wrote. *)
Lemma parseInt_toString n : parseInt (units (toString n)) = Some (Z.of_N n).
Proof.
  destruct (toString_units n) as (c & s & -> & Hc & Hs & Hread).
  unfold parseInt. cbn [skip_white_space].
  rewrite (digit_not_white_space c Hc).
  assert ((c =? 45) = false) as -> by (apply N.eqb_neq; destruct Hc; lia).
  assert ((c =? 43) = false) as -> by (apply N.eqb_neq; destruct Hc; lia).
  cbn [orb].
  assert (match c :: s with
          | c0 :: x :: _ => (c0 =? 48) && ((x =? 120) || (x =? 88))
          | _ => false
          end = false) as ->.
  { destruct s as [|x r]; [reflexivity|].
    apply Forall_cons in Hs as [[Hx1 Hx2] _].
    apply andb_false_iff. right.
    apply orb_false_intro; apply N.eqb_neq; lia. }
  rewrite Hread. f_equal. lia.
Qed.

(** Every token written by the encoder consists of decimal digits. *)
Lemma encodeChar_digits char : Forall is_decimal_digit (encodeChar char).
Proof.
  unfold encodeChar.
  destruct (char =? 32).
  - apply Forall_cons. split; [|apply Forall_nil; done].
    unfold is_decimal_digit. simpl. lia.
  - destruct (str_leb (units "A") (toUpperCase char)
              && str_leb (toUpperCase char) (units "Z")).
    + destruct (toString_units (charCodeAt0 (toUpperCase char) - 64))
        as (c & s & -> & Hc & Hs & _). by apply Forall_cons.
    + destruct (toString_units char) as (c & s & -> & Hc & Hs & _).
      by apply Forall_cons.
Qed.

Lemma encodeChar_nonempty char : encodeChar char <> [].
Proof.
  unfold encodeChar.
  destruct (char =? 32); [discriminate|].
  destruct (str_leb (units "A") (toUpperCase char)
            && str_leb (toUpperCase char) (units "Z")).
  - by destruct (toString_units (charCodeAt0 (toUpperCase char) - 64))
      as (c & s & -> & _).
  - by destruct (toString_units char) as (c & s & -> & _).
Qed.

Lemma encodeChar_token char :
  encodeChar char = units (toString (token_number char)).
Proof.
  unfold encodeChar, token_number, toUpperCase, charCodeAt0.
  destruct (N.eqb_spec char 32) as [->|Hsp]; [reflexivity|].
  destruct (N.leb_spec 97 char), (N.leb_spec char 122); simpl;
    repeat match goal with
           | |- context [?a <? ?b] => destruct (N.ltb_spec a b); simpl
           | |- context [?a <=? ?b] => destruct (N.leb_spec a b); simpl
           end; try lia; try reflexivity; f_equal; f_equal; lia.
Qed.

Lemma decodeToken_toString k :
  decodeToken (units (toString k))
  = if k =? 0 then units " "
    else if (1 <=? k) && (k <=? 26) then [k + 64]
    else [k mod 65536].
Proof.
  unfold decodeToken. rewrite parseInt_toString.
  destruct (N.eqb_spec k 0) as [->|Hk]; [reflexivity|].
  assert ((Z.of_N k =? 0)%Z = false) as -> by (apply Z.eqb_neq; lia).
  destruct (N.leb_spec 1 k), (N.leb_spec k 26); simpl.
  - assert (((1 <=? Z.of_N k) && (Z.of_N k <=? 26))%Z = true) as ->.
    { apply andb_true_iff. split; apply Z.leb_le; lia. }
    unfold fromCharCode. f_equal.
    rewrite Z.mod_small by lia. lia.
  - assert (((1 <=? Z.of_N k) && (Z.of_N k <=? 26))%Z = false) as ->.
    { apply andb_false_iff. right. apply Z.leb_gt. lia. }
    unfold fromCharCode. f_equal.
    rewrite <- (N2Z.id (k mod 65536)). f_equal. by rewrite N2Z.inj_mod.
  - lia.
  - lia.
Qed.

(** Decoding the token of a code unit from 27 to 127 gives the unit, in
    upper case if it is a letter. *)
Lemma decodeToken_encodeChar char :
  27 <= char <= 127 ->
  decodeToken (encodeChar char) = toUpperCase char.
Proof.
  intros [Hlo Hhi].
  rewrite encodeChar_token, decodeToken_toString.
  unfold token_number, toUpperCase.
  destruct (N.eqb_spec char 32) as [->|Hsp]; [reflexivity|].
  destruct (N.leb_spec 65 char), (N.leb_spec char 90),
           (N.leb_spec 97 char), (N.leb_spec char 122); simpl; try lia;
    repeat match goal with
           | |- context [?a =? ?b] => destruct (N.eqb_spec a b); simpl
           | |- context [?a <=? ?b] => destruct (N.leb_spec a b); simpl
           end; try lia; f_equal; try lia;
    apply N.mod_small; lia.
Qed.

Lemma split_nonempty sep s : split sep s <> [].
Proof.
  destruct s as [|c s]; simpl; [discriminate|].
  destruct (c =? sep); [discriminate|].
  destruct (split sep s); discriminate.
Qed.

(** Splitting a piece that does not hold the separator. *)
Lemma split_piece sep tok :
  Forall (fun c => c <> sep) tok -> split sep tok = [tok].
Proof.
  induction tok as [|c tok IH]; intros Hall; [reflexivity|].
  apply Forall_cons in Hall as [Hc Hall]. simpl.
  destruct (N.eqb_spec c sep); [done|]. by rewrite IH.
Qed.

Lemma split_piece_sep sep tok rest :
  Forall (fun c => c <> sep) tok ->
  split sep (tok ++ sep :: rest) = tok :: split sep rest.
Proof.
  induction tok as [|c tok IH]; intros Hall; simpl.
  - by rewrite N.eqb_refl.
  - apply Forall_cons in Hall as [Hc Hall].
    destruct (N.eqb_spec c sep); [done|]. by rewrite IH.
Qed.

(** [split] undoes [join] on pieces that do not hold the separator, when
    there is at least one piece. *)
Lemma split_join sep toks :
  toks <> [] ->
  Forall (Forall (fun c => c <> sep)) toks ->
  split sep (join [sep] toks) = toks.
Proof.
  induction toks as [|tok toks IH]; intros Hne Hall; [done|].
  apply Forall_cons in Hall as [Htok Hall].
  destruct toks as [|tok2 toks].
  - simpl. by apply split_piece.
  - change (join [sep] (tok :: tok2 :: toks))
      with (tok ++ sep :: join [sep] (tok2 :: toks)).
    rewrite split_piece_sep by done. f_equal. by apply IH.
Qed.

Lemma encodeChar_no_dash char : Forall (fun c => c <> 45) (encodeChar char).
Proof.
  eapply Forall_impl; [apply encodeChar_digits|].
  intros c [Hlo Hhi]. lia.
Qed.

(** Decoding an encoded text works token by token. *)
Lemma decode_encode_tokens text_ :
  text_ <> [] ->
  decodeFromNumbers (encodeToNumbers text_)
  = concat (map (fun char => decodeToken (encodeChar char)) text_).
Proof.
  intros Hne. unfold decodeFromNumbers, encodeToNumbers.
  change (units "-") with [45].
  rewrite split_join.
  - by rewrite map_map.
  - by destruct text_.
  - apply Forall_map, Forall_forall. intros c _. apply encodeChar_no_dash.
Qed.

(** On a non-empty text of code units from 27 to 127, decoding the
    encoding gives the text with its letters in upper case. *)
Lemma decode_encode_upper text_ :
  text_ <> [] ->
  Forall (fun c => 27 <= c <= 127) text_ ->
  decodeFromNumbers (encodeToNumbers text_)
  = concat (map toUpperCase text_).
Proof.
  intros Hne Hall. rewrite decode_encode_tokens by done. f_equal.
  apply map_ext_in. intros c Hc. apply decodeToken_encodeChar.
  by apply (proj1 (Forall_forall _ _) Hall), list_elem_of_In.
Qed.

(** For every non-empty text whose code units lie between 27 and 127 and
    are not lower-case letters, decoding the encoding gives the text
    back. *)
Theorem decode_encode_round_trip text_ :
  text_ <> [] ->
  Forall (fun c => round_trip_unit c = true) text_ ->
  decodeFromNumbers (encodeToNumbers text_) = text_.
Proof.
  intros Hne Hall. rewrite decode_encode_upper; [|done|].
  - clear Hne. induction text_ as [|c text_ IH]; [reflexivity|].
    apply Forall_cons in Hall as [Hc Hall]. simpl. rewrite IH by done.
    unfold round_trip_unit in Hc. unfold toUpperCase.
    apply andb_true_iff in Hc as [_ Hc]. apply negb_true_iff in Hc.
    by rewrite Hc.
  - eapply Forall_impl; [exact Hall|]. intros c Hc.
    unfold round_trip_unit in Hc.
    apply andb_true_iff in Hc as [Hc _].
    apply andb_true_iff in Hc as [H1 H2].
    apply N.leb_le in H1, H2. lia.
Qed.

Lemma decode_encode_round_trip_witness :
  decodeFromNumbers (encodeToNumbers (units "HI, BOB-42!"))
  = units "HI, BOB-42!".
Proof.
  apply decode_encode_round_trip.
  - discriminate.
  - vm_compute. repeat constructor.
Defined.

(** The round trip fails on lower-case letters: the text "hi" is encoded
    as "8-9", which decodes to "HI". *)
Lemma decode_encode_loses_case :
  encodeToNumbers (units "hi") = units "8-9"
  /\ decodeFromNumbers (encodeToNumbers (units "hi")) = units "HI"
  /\ decodeFromNumbers (encodeToNumbers (units "hi")) <> units "hi".
Proof.
  split; [reflexivity|]. split; [reflexivity|]. vm_compute. discriminate.
Qed.

(** The encoder is not one-to-one on letters. *)
Lemma encode_not_injective :
  encodeToNumbers (units "hi") = encodeToNumbers (units "HI")
  /\ units "hi" <> units "HI".
Proof. split; [reflexivity|]. vm_compute. discriminate. Qed.

(** Outside the letters, two more kinds of text do not come back: control
    characters below 27, and the empty text. *)
Lemma decode_encode_other_losses :
  decodeFromNumbers (encodeToNumbers [10]) = units "J"
  /\ decodeFromNumbers (encodeToNumbers []) = [0].
Proof. split; reflexivity. Qed.
End CodecProperties.

(** * Further properties of the handlers *)

Lemma reachable_st_offline_peer : reachable st_offline_peer.
Proof. by_trace trace_offline_peer. Defined.

(** ** More on the [users] map *)

Lemma users_set_same k v m : users_get k m = Some v -> users_set k v m = m.
Proof.
  induction m as [|[k' v'] m IH]; simpl; [done|].
  destruct (String.eqb_spec k' k) as [->|Hne].
  - by intros [= ->].
  - intros H. by rewrite IH.
Qed.

Lemma users_set_absent k v m :
  users_get k m = None -> users_set k v m = m ++ [(k, v)].
Proof.
  induction m as [|[k' v'] m IH]; simpl; [done|].
  destruct (String.eqb_spec k' k) as [->|Hne]; [done|].
  intros H. by rewrite IH.
Qed.

Lemma find_by_number_app n m1 m2 :
  find_by_number n (m1 ++ m2)
  = match find_by_number n m1 with
    | Some u => Some u
    | None => find_by_number n m2
    end.
Proof.
  unfold find_by_number, users_values.
  induction m1 as [|[k v] m1 IH]; simpl; [reflexivity|].
  by destruct (String.eqb (number v) n).
Qed.

Lemma find_by_number_reachable st n :
  Inv st -> find_by_number n (users st) = users_get n (users st).
Proof.
  intros HI. apply find_by_number_keyed.
  intros k u Hin. by destruct (inv_users _ HI _ _ Hin).
Qed.

Lemma bound_truthy st sid uid :
  Inv st -> activeConnections st !! sid = Some uid ->
  truthy (Some uid) = true.
Proof.
  intros HI Hac. destruct (inv_bound _ HI _ _ Hac) as (_ & Hv & _).
  by apply four_ascii_digits_truthy.
Qed.

(** ** Resolving a sign-in request *)

(** X1: [denySignIn] for a pending request, sent by any connection at all
    (the handler looks at nothing but the request), tells the requesting
    connection [signInDenied] and removes the request; users, bindings and
    logs are untouched.  The request is then gone for good: a later
    [approveSignIn] or [denySignIn] with the same identifier does nothing. *)
Theorem denySignIn_resolves_for_good sid requestId st request :
  signInRequests st !! requestId = Some request ->
  let st1 := mkState (users st) (messages st) (activeConnections st)
                     (delete requestId (signInRequests st)) in
  denySignIn sid requestId st
  = Some (st1, [IoTo (requestingSocketId request) signInDenied])
  /\ (forall sid2, approveSignIn sid2 requestId st1 = Some (st1, []))
  /\ (forall sid2, denySignIn sid2 requestId st1 = Some (st1, [])).
Proof.
  intros Hreq st1. split; [|split].
  - unfold denySignIn. by rewrite Hreq.
  - intros sid2. apply approveSignIn_noop. left. apply lookup_delete_eq.
  - intros sid2. unfold denySignIn. simpl. by rewrite lookup_delete_eq.
Qed.

Lemma denySignIn_resolves_for_good_witness :
  denySignIn "Z" "3" st_pending
  = Some (st_two_users, [IoTo "C" signInDenied]).
Proof.
  refine (proj1 (denySignIn_resolves_for_good "Z" "3" st_pending
                   (mkSignInRequest "1111" "C") _)).
  reflexivity.
Defined.

(** X2: when a bound connection [S] approves a pending request of another
    connection [R], the user [S] was bound to is handed to [R]: the record
    names [R], [R] is bound to the user, [S] is bound to nothing, the
    request is gone, and the next [sendMessage] of [S] is answered "Not
    registered". *)
Theorem approval_signs_out_approver S R requestId st request U :
  reachable st ->
  signInRequests st !! requestId = Some request ->
  requestingSocketId request = R ->
  activeConnections st !! S = Some U ->
  R <> S ->
  exists st1 u1,
    approveSignIn S requestId st
    = Some (st1, [IoTo R (signInApproved U u1)])
    /\ users_get U (users st1) = Some u1
    /\ socketId u1 = Some R
    /\ activeConnections st1 !! R = Some U
    /\ activeConnections st1 !! S = None
    /\ signInRequests st1 !! requestId = None
    /\ forall now to_ text_,
         sendMessage S now to_ text_ st1
         = Some (st1, [SocketEmit (error "Not registered")]).
Proof.
  intros Hreach Hreq HR Hac Hne. pose proof (reachable_Inv _ Hreach) as HI.
  destruct (inv_bound _ HI _ _ Hac) as (_ & _ & u & Hget & _).
  rewrite (approveSignIn_hands_over _ _ _ _ _ _ HI Hreq Hac Hget). subst R.
  eexists _, _. split; [reflexivity|]. simpl.
  assert ((<[requestingSocketId request := U]>
             (delete S (activeConnections st))) !! S = None) as HS.
  { rewrite lookup_insert_ne by done. apply lookup_delete_eq. }
  split; [apply users_get_set_eq|]. split; [reflexivity|].
  split; [apply lookup_insert_eq|]. split; [exact HS|].
  split; [apply lookup_delete_eq|].
  intros now to_ text_. unfold sendMessage. simpl. by rewrite HS.
Qed.

Lemma approval_signs_out_approver_witness :
  exists st1 u1,
    approveSignIn "A" "3" st_pending
    = Some (st1, [IoTo "C" (signInApproved "1111" u1)])
    /\ users_get "1111" (users st1) = Some u1
    /\ socketId u1 = Some "C"
    /\ activeConnections st1 !! "C" = Some "1111"
    /\ activeConnections st1 !! "A" = None
    /\ signInRequests st1 !! "3" = None
    /\ forall now to_ text_,
         sendMessage "A" now to_ text_ st1
         = Some (st1, [SocketEmit (error "Not registered")]).
Proof.
  apply (approval_signs_out_approver "A" "C" "3" st_pending
           (mkSignInRequest "1111" "C") "1111").
  - exact reachable_st_pending.
  - reflexivity.
  - reflexivity.
  - reflexivity.
  - discriminate.
Defined.

(** ** Profiles *)

Lemma updateProfile_bound sid profileData st U u :
  Inv st ->
  activeConnections st !! sid = Some U ->
  users_get U (users st) = Some u ->
  let u1 :=
    mkUser (number u)
           (assign (pd_nickname profileData) (nickname u))
           (assign (pd_lastname profileData) (lastname u))
           (assign (pd_photo profileData) (photo u))
           (assign (pd_age profileData) (age u))
           (assign (pd_email profileData) (email u))
           (assign (pd_phone profileData) (phone u))
           (assign (pd_birthday profileData) (birthday u))
           (socketId u) in
  updateProfile sid profileData st
  = Some (mkState (users_set U u1 (users st)) (messages st)
                  (activeConnections st) (signInRequests st),
          [SocketEmit (profileUpdated u1)]).
Proof.
  intros HI Hac Hget u1. unfold updateProfile.
  by rewrite Hac, (bound_truthy _ _ _ HI Hac), Hget.
Qed.

(** X3: [updateProfile] from a connection bound to [U] rewrites the record
    of [U] only: a field present in the payload takes the new value, an
    absent one keeps the old; the number and the connection of [U], every
    other user's record, and the bindings, logs and requests stay as they
    were.  The updated record is sent back as [profileUpdated]. *)
Theorem updateProfile_touches_own_profile_only sid profileData st U u :
  reachable st ->
  activeConnections st !! sid = Some U ->
  users_get U (users st) = Some u ->
  exists st1 u1,
    updateProfile sid profileData st
    = Some (st1, [SocketEmit (profileUpdated u1)])
    /\ users_get U (users st1) = Some u1
    /\ number u1 = number u /\ socketId u1 = socketId u
    /\ profile u1
       = (assign (pd_nickname profileData) (nickname u),
          assign (pd_lastname profileData) (lastname u),
          assign (pd_photo profileData) (photo u),
          assign (pd_age profileData) (age u),
          assign (pd_email profileData) (email u),
          assign (pd_phone profileData) (phone u),
          assign (pd_birthday profileData) (birthday u))
    /\ (forall k, k <> U -> users_get k (users st1) = users_get k (users st))
    /\ messages st1 = messages st
    /\ activeConnections st1 = activeConnections st
    /\ signInRequests st1 = signInRequests st.
Proof.
  intros Hreach Hac Hget. pose proof (reachable_Inv _ Hreach) as HI.
  rewrite (updateProfile_bound _ profileData _ _ _ HI Hac Hget).
  eexists _, _. split; [reflexivity|]. simpl.
  split; [apply users_get_set_eq|].
  do 3 (split; [reflexivity|]).
  split; [|by repeat split].
  intros k Hk. by apply users_get_set_ne.
Qed.

Lemma updateProfile_touches_own_profile_only_witness :
  exists st1 u1,
    updateProfile "A"
      (mkProfileData (Some "Al") None None (Some 30) None None None)
      st_two_users
    = Some (st1, [SocketEmit (profileUpdated u1)])
    /\ users_get "1111" (users st1) = Some u1
    /\ number u1 = "1111" /\ socketId u1 = Some "A"
    /\ profile u1 = ("Al", "", "", 30, "", "", "")
    /\ (forall k, k <> "1111" ->
          users_get k (users st1) = users_get k (users st_two_users))
    /\ messages st1 = messages st_two_users
    /\ activeConnections st1 = activeConnections st_two_users
    /\ signInRequests st1 = signInRequests st_two_users.
Proof.
  apply (updateProfile_touches_own_profile_only "A"
           (mkProfileData (Some "Al") None None (Some 30) None None None)
           st_two_users "1111" (plain_user "1111" (Some "A"))).
  - exact reachable_st_two_users.
  - reflexivity.
  - reflexivity.
Defined.

(** X4: [updateProfile] with no field present changes nothing at all: the
    state after is the state before, and the stored record comes back as
    [profileUpdated].  From a connection that is not bound the answer is
    the error "Not registered", again with no change. *)
Theorem updateProfile_without_fields_is_a_read sid st :
  reachable st ->
  match activeConnections st !! sid with
  | Some U =>
      exists u, users_get U (users st) = Some u
                /\ updateProfile sid empty_profileData st
                   = Some (st, [SocketEmit (profileUpdated u)])
  | None =>
      forall profileData,
        updateProfile sid profileData st
        = Some (st, [SocketEmit (error "Not registered")])
  end.
Proof.
  intros Hreach. pose proof (reachable_Inv _ Hreach) as HI.
  destruct (activeConnections st !! sid) as [U|] eqn:Hac.
  - destruct (inv_bound _ HI _ _ Hac) as (_ & _ & u & Hget & _).
    exists u. split; [exact Hget|].
    rewrite (updateProfile_bound _ empty_profileData _ _ _ HI Hac Hget).
    simpl. destruct u; simpl. rewrite users_set_same by exact Hget.
    by destruct st.
  - intros profileData. unfold updateProfile. by rewrite Hac.
Qed.

Lemma updateProfile_without_fields_is_a_read_witness :
  exists u, users_get "2222" (users st_two_users) = Some u
            /\ updateProfile "B" empty_profileData st_two_users
               = Some (st_two_users, [SocketEmit (profileUpdated u)]).
Proof.
  exact (updateProfile_without_fields_is_a_read "B" st_two_users
           reachable_st_two_users).
Defined.

(** X5: [getUserByNumber], from any connection, bound or not, never
    changes the state; it answers [userFound] with the number, nickname,
    lastname and photo of the record stored under that number when there
    is one, and [userNotFound] otherwise.  Age, email, phone, birthday and
    the connection of the user are never part of the answer. *)
Theorem getUserByNumber_answers_from_the_directory sid n st :
  reachable st ->
  getUserByNumber sid n st
  = Some (st,
          [SocketEmit
             match users_get n (users st) with
             | Some u => userFound n (nickname u) (lastname u) (photo u)
             | None => userNotFound n
             end]).
Proof.
  intros Hreach. pose proof (reachable_Inv _ Hreach) as HI.
  unfold getUserByNumber. rewrite (find_by_number_reachable _ _ HI).
  destruct (users_get n (users st)) as [u|] eqn:Hget; [|reflexivity].
  by destruct (Inv_get _ _ _ HI Hget) as (-> & _).
Qed.

Lemma getUserByNumber_answers_from_the_directory_witness :
  getUserByNumber "Z" "2222" st_two_users
  = Some (st_two_users, [SocketEmit (userFound "2222" "User" "" "")]).
Proof.
  exact (getUserByNumber_answers_from_the_directory "Z" "2222" st_two_users
           reachable_st_two_users).
Defined.

(** ** Disconnecting *)

(** X6: [disconnect] of a connection bound to [U] marks [U] offline and
    removes the binding, emitting nothing; from then on a [register] for
    [U] from any connection signs in at once, with the stored profile and
    without creating a request. *)
Theorem disconnect_frees_the_number sid st U :
  reachable st ->
  activeConnections st !! sid = Some U ->
  exists u st1,
    users_get U (users st) = Some u
    /\ disconnect sid st = Some (st1, [])
    /\ users_get U (users st1) = Some (set_socketId None u)
    /\ activeConnections st1 !! sid = None
    /\ forall sid2 now userData,
         ud_number userData = Some U ->
         exists st2,
           register sid2 now userData st1
           = Some (st2,
                   [SocketEmit (registered U (set_socketId (Some sid2) u))])
           /\ activeConnections st2 !! sid2 = Some U
           /\ signInRequests st2 = signInRequests st.
Proof.
  intros Hreach Hac. pose proof (reachable_Inv _ Hreach) as HI.
  destruct (inv_bound _ HI _ _ Hac) as (_ & Hvalid & u & Hget & _).
  exists u. eexists. split; [exact Hget|]. split.
  { unfold disconnect.
    rewrite Hac, (bound_truthy _ _ _ HI Hac), Hget. reflexivity. }
  unfold_setters. split; [apply users_get_set_eq|].
  split; [apply lookup_delete_eq|].
  intros sid2 now userData Hn. eexists. split.
  { unfold register. rewrite Hn.
    apply invalid_number_spec in Hvalid. rewrite Hvalid.
    cbn [users]. rewrite users_get_set_eq. reflexivity. }
  unfold_setters. split; [apply lookup_insert_eq|reflexivity].
Qed.

Lemma disconnect_frees_the_number_witness :
  exists u st1,
    users_get "1111" (users st_two_users) = Some u
    /\ disconnect "A" st_two_users = Some (st1, [])
    /\ users_get "1111" (users st1) = Some (set_socketId None u)
    /\ activeConnections st1 !! "A" = None
    /\ forall sid2 now userData,
         ud_number userData = Some "1111" ->
         exists st2,
           register sid2 now userData st1
           = Some (st2,
                   [SocketEmit
                      (registered "1111" (set_socketId (Some sid2) u))])
           /\ activeConnections st2 !! sid2 = Some "1111"
           /\ signInRequests st2 = signInRequests st_two_users.
Proof.
  apply (disconnect_frees_the_number "A" st_two_users "1111").
  - exact reachable_st_two_users.
  - reflexivity.
Defined.

(** X7: [disconnect] emits nothing and leaves the connection unbound; a
    second [disconnect] of the same connection, or a [disconnect] of a
    connection that was never bound, changes nothing. *)
Theorem disconnect_is_idempotent sid st :
  reachable st ->
  exists st1,
    disconnect sid st = Some (st1, [])
    /\ activeConnections st1 !! sid = None
    /\ disconnect sid st1 = Some (st1, [])
    /\ (activeConnections st !! sid = None -> st1 = st).
Proof.
  intros Hreach. pose proof (reachable_Inv _ Hreach) as HI.
  unfold disconnect at 1.
  destruct (activeConnections st !! sid) as [U|] eqn:Hac.
  - rewrite (bound_truthy _ _ _ HI Hac). simpl. eexists.
    split; [reflexivity|]. unfold_setters.
    assert (delete sid
              (activeConnections
                 match users_get U (users st) with
                 | Some user =>
                     mkState (users_set U (set_socketId None user) (users st))
                             (messages st) (activeConnections st)
                             (signInRequests st)
                 | None => st
                 end) !! sid = None) as Hgone by apply lookup_delete_eq.
    split; [exact Hgone|]. split; [|done].
    unfold disconnect. simpl. by rewrite Hgone.
  - exists st. split; [reflexivity|]. split; [exact Hac|].
    split; [|done]. unfold disconnect. by rewrite Hac.
Qed.

Lemma disconnect_is_idempotent_witness :
  exists st1,
    disconnect "B" st_two_users = Some (st1, [])
    /\ activeConnections st1 !! "B" = None
    /\ disconnect "B" st1 = Some (st1, [])
    /\ (activeConnections st_two_users !! "B" = None -> st1 = st_two_users).
Proof.
  exact (disconnect_is_idempotent "B" st_two_users reachable_st_two_users).
Defined.

(** ** Every state the server can be in *)

Lemma run_total ds : forall st,
  Inv st -> well_formed ds -> exists st', run ds st = Some st'.
Proof.
  induction ds as [|d ds IH]; simpl; intros st HI Hwf; [eauto|].
  apply Forall_cons in Hwf as [Hd Hwf].
  destruct (handle_total d st HI) as [[st1 out] Hh]. rewrite Hh.
  apply IH; [|done]. by eapply handle_preserves.
Qed.

Lemma mailNotification_total EMAIL_USER toUpperCase_ sid to_ text_ st :
  Inv st ->
  exists m,
    mailNotification EMAIL_USER toUpperCase_ sid to_ text_ st = Some m.
Proof.
  intros HI. unfold mailNotification.
  destruct (activeConnections st !! sid) as [f|] eqn:Hac; [|eauto].
  destruct (inv_bound _ HI _ _ Hac) as (_ & _ & fu & -> & _).
  repeat case_match; eauto.
Qed.

(** X8: whatever events of the event table arrive, in whatever order, from
    connections with non-empty identifiers, no handler ever meets a
    missing user record where it dereferences one: the four lookups
    [users.get(userId)] that are used unguarded ([approveSignIn],
    [updateProfile], [initiateCall], and the mail branch of [sendMessage])
    all find the record of the bound sender.  So every event is handled to
    the end, its mail branch included, and the server reaches a state. *)
Theorem server_never_throws ds :
  well_formed ds ->
  exists st,
    run ds init = Some st
    /\ (forall d, exists st1 out, handle d st = Some (st1, out))
    /\ (forall EMAIL_USER toUpperCase_ sid to_ text_,
          exists m,
            mailNotification EMAIL_USER toUpperCase_ sid to_ text_ st
            = Some m).
Proof.
  intros Hwf. destruct (run_total ds init Inv_init Hwf) as [st Hrun].
  exists st. split; [exact Hrun|].
  assert (Inv st) as HI by (by eapply run_preserves; [apply Inv_init|..]).
  split.
  - intros d. destruct (handle_total d st HI) as [[st1 out] Hh]. eauto.
  - intros. by apply mailNotification_total.
Qed.

Lemma server_never_throws_witness :
  exists st,
    run trace_pending init = Some st
    /\ (forall d, exists st1 out, handle d st = Some (st1, out))
    /\ (forall EMAIL_USER toUpperCase_ sid to_ text_,
          exists m,
            mailNotification EMAIL_USER toUpperCase_ sid to_ text_ st
            = Some m).
Proof.
  apply (server_never_throws trace_pending).
  repeat constructor; discriminate.
Defined.

(** X9: in every state the server can be in, a connection bound to [U] is
    bound to a stored user whose number is [U], four ASCII digits, and
    whose record names exactly that connection; hence no other connection
    is bound to [U]. *)
Theorem binding_agrees_with_record st sid U :
  reachable st ->
  activeConnections st !! sid = Some U ->
  four_ascii_digits U
  /\ (exists u, users_get U (users st) = Some u
                /\ number u = U /\ socketId u = Some sid)
  /\ forall sid2, activeConnections st !! sid2 = Some U -> sid2 = sid.
Proof.
  intros Hreach Hac. pose proof (reachable_Inv _ Hreach) as HI.
  destruct (inv_bound _ HI _ _ Hac) as (_ & Hvalid & u & Hget & Hs).
  split; [exact Hvalid|]. split.
  - exists u. split; [exact Hget|]. split; [|exact Hs].
    by destruct (Inv_get _ _ _ HI Hget).
  - intros sid2 Hac2.
    destruct (inv_bound _ HI _ _ Hac2) as (_ & _ & u2 & Hget2 & Hs2).
    congruence.
Qed.

Lemma binding_agrees_with_record_witness :
  four_ascii_digits "3333"
  /\ (exists u, users_get "3333" (users st_chat) = Some u
                /\ number u = "3333" /\ socketId u = Some "C")
  /\ forall sid2, activeConnections st_chat !! sid2 = Some "3333" ->
                  sid2 = "C".
Proof.
  apply (binding_agrees_with_record st_chat "C" "3333").
  - exact reachable_st_chat.
  - reflexivity.
Defined.

(** ** What no event undoes *)

Lemma users_get_set k0 v m k :
  users_get k (users_set k0 v m)
  = if decide (k0 = k) then Some v else users_get k m.
Proof.
  case_decide as Hk.
  - subst. apply users_get_set_eq.
  - by apply users_get_set_ne.
Qed.

Lemma handle_messages d st st' out key log :
  handle d st = Some (st', out) ->
  messages st !! key = Some log ->
  exists more, messages st' !! key = Some (log ++ more).
Proof.
  intros H Hlog.
  assert (messages st' = messages st \/
          exists chat m,
            messages st'
            = <[chat := default [] (messages st !! chat) ++ [m]]>
                (messages st)) as [->|(chat & m & ->)].
  { unfold handle in H. destruct (d_event d).
    - unfold register in H. repeat case_match; simplify_eq; by left.
    - unfold approveSignIn in H. repeat case_match; simplify_eq; by left.
    - unfold denySignIn in H. repeat case_match; simplify_eq; by left.
    - unfold updateProfile in H. repeat case_match; simplify_eq; by left.
    - apply getUserByNumber_state in H as ->. by left.
    - unfold sendMessage in H. repeat case_match; simplify_eq;
        try (by left); right; eauto.
    - apply getChatHistory_state in H as ->. by left.
    - apply initiateCall_state in H as ->. by left.
    - apply answerCall_state in H as ->. by left.
    - apply iceCandidateHandler_state in H as ->. by left.
    - apply endCall_state in H as ->. by left.
    - unfold disconnect in H. repeat case_match; simplify_eq; by left. }
  - exists []. by rewrite app_nil_r.
  - destruct (decide (chat = key)) as [->|Hne].
    + rewrite lookup_insert_eq, Hlog. simpl. eauto.
    + rewrite lookup_insert_ne by done. exists []. by rewrite app_nil_r.
Qed.

(** X10: logs are append-only.  Along any sequence of events, a log that
    exists keeps existing under the same key and keeps its messages, in
    order, at its head; events can only add messages after them. *)
Theorem logs_only_grow ds : forall st st' key log,
  run ds st = Some st' ->
  messages st !! key = Some log ->
  exists more, messages st' !! key = Some (log ++ more).
Proof.
  induction ds as [|d ds IH]; simpl; intros st st' key log Hrun Hlog.
  - injection Hrun as <-. exists []. by rewrite app_nil_r.
  - destruct (handle d st) as [[st1 out]|] eqn:Hh; [|done].
    destruct (handle_messages _ _ _ _ _ _ Hh Hlog) as [more1 H1].
    destruct (IH _ _ _ _ Hrun H1) as [more2 H2].
    exists (more1 ++ more2). by rewrite app_assoc.
Qed.

Lemma logs_only_grow_witness :
  exists more,
    messages
      (mkState [("1111", plain_user "1111" (Some "A"));
                ("2222", plain_user "2222" None);
                ("3333", plain_user "3333" (Some "C"))]
               (<["1111-2222" := [mkMessage "1111" "2222" "hi" 9;
                                  mkMessage "2222" "1111" "yo" 10]]> ∅)
               (<["C" := "3333"]> (<["A" := "1111"]> ∅)) ∅)
      !! "1111-2222"
    = Some ([mkMessage "1111" "2222" "hi" 9] ++ more).
Proof.
  apply (logs_only_grow
           [mkDispatch "B" 10 (SendMessage "1111" "yo");
            mkDispatch "B" 11 Disconnect;
            mkDispatch "C" 12 (UpdateProfile empty_profileData)]
           st_chat).
  - vm_compute. reflexivity.
  - reflexivity.
Defined.

Lemma handle_users d st st' out k u :
  handle d st = Some (st', out) ->
  users_get k (users st) = Some u ->
  exists u',
    users_get k (users st') = Some u'
    /\ number u' = number u
    /\ ((forall pd, d_event d = UpdateProfile pd ->
                    activeConnections st !! d_socket d <> Some k) ->
        profile u' = profile u).
Proof.
  intros H Hget. unfold handle in H.
  destruct (d_event d) eqn:He.
  - unfold register in H. repeat case_match; simplify_eq; unfold_setters;
      rewrite ?users_get_set; repeat case_decide; simplify_eq; eauto.
  - unfold approveSignIn in H.
    repeat case_match; simplify_eq; unfold_setters;
      rewrite ?users_get_set; repeat case_decide; simplify_eq; eauto.
  - unfold denySignIn in H. repeat case_match; simplify_eq; eauto.
  - unfold updateProfile in H.
    repeat case_match; simplify_eq; unfold_setters;
      rewrite ?users_get_set; repeat case_decide; simplify_eq; eauto.
    eexists. split; [reflexivity|]. split; [reflexivity|].
    intros Hown. by destruct (Hown _ eq_refl).
  - apply getUserByNumber_state in H as ->. eauto.
  - unfold sendMessage in H. repeat case_match; simplify_eq; eauto.
  - apply getChatHistory_state in H as ->. eauto.
  - apply initiateCall_state in H as ->. eauto.
  - apply answerCall_state in H as ->. eauto.
  - apply iceCandidateHandler_state in H as ->. eauto.
  - apply endCall_state in H as ->. eauto.
  - unfold disconnect in H.
    repeat case_match; simplify_eq; unfold_setters;
      rewrite ?users_get_set; repeat case_decide; simplify_eq; eauto.
Qed.

(** X11: user records are never removed and their number never changes:
    along any sequence of events, a number that has a record keeps having
    one, with the same [number] field. *)
Theorem users_are_never_removed ds : forall st st' k u,
  run ds st = Some st' ->
  users_get k (users st) = Some u ->
  exists u', users_get k (users st') = Some u' /\ number u' = number u.
Proof.
  induction ds as [|d ds IH]; simpl; intros st st' k u Hrun Hget.
  - injection Hrun as <-. eauto.
  - destruct (handle d st) as [[st1 out]|] eqn:Hh; [|done].
    destruct (handle_users _ _ _ _ _ _ Hh Hget) as (u1 & H1 & Hn1 & _).
    destruct (IH _ _ _ _ Hrun H1) as (u2 & H2 & Hn2).
    exists u2. split; [exact H2|congruence].
Qed.

Lemma users_are_never_removed_witness :
  exists u',
    users_get "2222"
      (users (mkState [("1111", plain_user "1111" (Some "A"));
                       ("2222", plain_user "2222" None)] ∅
                      (<["A" := "1111"]> ∅) ∅))
    = Some u'
    /\ number u' = number (plain_user "2222" (Some "B")).
Proof.
  apply (users_are_never_removed [mkDispatch "B" 5 Disconnect] st_two_users).
  - vm_compute. reflexivity.
  - reflexivity.
Defined.

(** X12: the profile fields of a user (nickname, lastname, photo, age,
    email, phone, birthday) survive every event except an [updateProfile]
    that arrives on a connection bound to that very user: registering
    again, handing a session over, disconnecting, or another user's
    [updateProfile] leave them as they were. *)
Theorem profile_changes_only_by_own_updateProfile d st st' out k u :
  handle d st = Some (st', out) ->
  users_get k (users st) = Some u ->
  (forall pd, d_event d = UpdateProfile pd ->
              activeConnections st !! d_socket d <> Some k) ->
  exists u', users_get k (users st') = Some u' /\ profile u' = profile u.
Proof.
  intros Hh Hget Hown.
  destruct (handle_users _ _ _ _ _ _ Hh Hget) as (u' & H1 & _ & Hp).
  exists u'. split; [exact H1|]. by apply Hp.
Qed.

Lemma profile_changes_only_by_own_updateProfile_witness :
  exists u',
    users_get "2222"
      (users (mkState [("1111", mkUser "1111" "Al" "" "" 0 "" "" ""
                                       (Some "A"));
                       ("2222", plain_user "2222" (Some "B"))] ∅
                      (activeConnections st_two_users) ∅))
    = Some u'
    /\ profile u' = profile (plain_user "2222" (Some "B")).
Proof.
  apply (profile_changes_only_by_own_updateProfile
           (mkDispatch "A" 5
              (UpdateProfile
                 (mkProfileData (Some "Al") None None None None None None)))
           st_two_users _ [SocketEmit (profileUpdated
                             (mkUser "1111" "Al" "" "" 0 "" "" ""
                                     (Some "A")))]).
  - vm_compute. reflexivity.
  - reflexivity.
  - intros pd _. vm_compute. discriminate.
Defined.

(** ** Call signaling *)

Lemma live_socket_reachable st t :
  Inv st ->
  live_socket t st
  = match users_get t (users st) with
    | Some u => socketId u
    | None => None
    end.
Proof.
  intros HI. unfold live_socket. rewrite (find_by_number_reachable _ _ HI).
  destruct (users_get t (users st)) as [u|] eqn:Hget; [|reflexivity].
  rewrite (stored_truthy _ _ (Inv_get _ _ _ HI Hget)).
  by destruct (socketId u).
Qed.

(** X13: the four call-signaling events ([initiateCall], [answerCall],
    [iceCandidate], [endCall]) never change the state, and emit either
    nothing or a single event addressed to the connection named in the
    record of the user the event is for. *)
Theorem call_signals_only_forward d st t :
  reachable st ->
  call_target (d_event d) = Some t ->
  exists out,
    handle d st = Some (st, out)
    /\ (out = []
        \/ exists dest e u,
             out = [IoTo dest e]
             /\ users_get t (users st) = Some u
             /\ socketId u = Some dest).
Proof.
  intros Hreach Ht. pose proof (reachable_Inv _ Hreach) as HI.
  pose proof (live_socket_reachable st t HI) as Hlive.
  unfold handle.
  destruct (d_event d); try discriminate Ht; injection Ht as ->.
  - unfold initiateCall.
    destruct (activeConnections st !! d_socket d) as [f|] eqn:Hac;
      [|eauto].
    rewrite (bound_truthy _ _ _ HI Hac). simpl.
    destruct (inv_bound _ HI _ _ Hac) as (_ & _ & fu & -> & _).
    rewrite Hlive.
    destruct (users_get t (users st)) as [u|] eqn:Hget; [|eauto].
    destruct (socketId u) as [dest|] eqn:Hs; [|eauto].
    eexists. split; [reflexivity|]. right. by eexists _, _, _.
  - unfold answerCall.
    destruct (activeConnections st !! d_socket d) as [f|] eqn:Hac;
      [|eauto].
    rewrite (bound_truthy _ _ _ HI Hac). simpl. rewrite Hlive.
    destruct (users_get t (users st)) as [u|] eqn:Hget; [|eauto].
    destruct (socketId u) as [dest|] eqn:Hs; [|eauto].
    eexists. split; [reflexivity|]. right. by eexists _, _, _.
  - unfold iceCandidateHandler. rewrite Hlive.
    destruct (users_get t (users st)) as [u|] eqn:Hget; [|eauto].
    destruct (socketId u) as [dest|] eqn:Hs; [|eauto].
    eexists. split; [reflexivity|]. right. by eexists _, _, _.
  - unfold endCall. rewrite Hlive.
    destruct (users_get t (users st)) as [u|] eqn:Hget; [|eauto].
    destruct (socketId u) as [dest|] eqn:Hs; [|eauto].
    eexists. split; [reflexivity|]. right. by eexists _, _, _.
Qed.

Lemma call_signals_only_forward_witness :
  exists out,
    handle (mkDispatch "A" 5 (AnswerCall "2222" "sdp")) st_two_users
    = Some (st_two_users, out)
    /\ (out = []
        \/ exists dest e u,
             out = [IoTo dest e]
             /\ users_get "2222" (users st_two_users) = Some u
             /\ socketId u = Some dest).
Proof.
  apply (call_signals_only_forward
           (mkDispatch "A" 5 (AnswerCall "2222" "sdp")) st_two_users "2222").
  - exact reachable_st_two_users.
  - reflexivity.
Defined.

(** X14: a connection that is not bound cannot start or answer a call,
    [initiateCall] and [answerCall] from it are dropped; but its
    [iceCandidate] and [endCall] are forwarded all the same to a live
    recipient, with [from] undefined: these two handlers do not look at
    the sender. *)
Theorem unbound_connection_can_still_signal sid t st u dest :
  reachable st ->
  activeConnections st !! sid = None ->
  users_get t (users st) = Some u ->
  socketId u = Some dest ->
  (forall offer, initiateCall sid t offer st = Some (st, []))
  /\ (forall answer, answerCall sid t answer st = Some (st, []))
  /\ (forall candidate,
        iceCandidateHandler sid t candidate st
        = Some (st, [IoTo dest (iceCandidate None candidate)]))
  /\ endCall sid t st = Some (st, [IoTo dest (callEnded None)]).
Proof.
  intros Hreach Hac Hget Hs. pose proof (reachable_Inv _ Hreach) as HI.
  pose proof (live_socket_reachable st t HI) as Hlive.
  rewrite Hget, Hs in Hlive.
  unfold initiateCall, answerCall, iceCandidateHandler, endCall.
  rewrite Hac, Hlive. by repeat split.
Qed.

Lemma unbound_connection_can_still_signal_witness :
  (forall offer, initiateCall "Z" "1111" offer st_two_users
                 = Some (st_two_users, []))
  /\ (forall answer, answerCall "Z" "1111" answer st_two_users
                     = Some (st_two_users, []))
  /\ (forall candidate,
        iceCandidateHandler "Z" "1111" candidate st_two_users
        = Some (st_two_users, [IoTo "A" (iceCandidate None candidate)]))
  /\ endCall "Z" "1111" st_two_users
     = Some (st_two_users, [IoTo "A" (callEnded None)]).
Proof.
  apply (unbound_connection_can_still_signal "Z" "1111" st_two_users
           (plain_user "1111" (Some "A")) "A").
  - exact reachable_st_two_users.
  - reflexivity.
  - reflexivity.
  - reflexivity.
Defined.

(** X15: [initiateCall] from a connection bound to [f] is forwarded to the
    connection named in the record of the user [t] it is for, as
    [incomingCall] carrying [f], the nickname, lastname and photo of [f]'s
    own record, and the offer.  When that record names no connection (its
    [socketId] is null), or there is no such user, nothing is emitted at
    all: the caller gets no answer.  [answerCall] behaves the same way with
    [callAnswered].  In particular a connection that is bound to [t]
    receives the call. *)
Theorem call_is_forwarded_to_recorded_connection sid t st f :
  reachable st ->
  activeConnections st !! sid = Some f ->
  exists fu,
    users_get f (users st) = Some fu
    /\ (forall offer,
          initiateCall sid t offer st
          = Some (st,
                  match users_get t (users st) with
                  | Some tu =>
                      match socketId tu with
                      | Some dest =>
                          [IoTo dest
                             (incomingCall f (nickname fu) (lastname fu)
                                           (photo fu) offer)]
                      | None => []
                      end
                  | None => []
                  end))
    /\ (forall answer,
          answerCall sid t answer st
          = Some (st,
                  match users_get t (users st) with
                  | Some tu =>
                      match socketId tu with
                      | Some dest => [IoTo dest (callAnswered f answer)]
                      | None => []
                      end
                  | None => []
                  end))
    /\ (forall sid2 offer answer,
          activeConnections st !! sid2 = Some t ->
          initiateCall sid t offer st
          = Some (st, [IoTo sid2
                         (incomingCall f (nickname fu) (lastname fu)
                                       (photo fu) offer)])
          /\ answerCall sid t answer st
             = Some (st, [IoTo sid2 (callAnswered f answer)])).
Proof.
  intros Hreach Hac. pose proof (reachable_Inv _ Hreach) as HI.
  pose proof (live_socket_reachable st t HI) as Hlive.
  destruct (inv_bound _ HI _ _ Hac) as (_ & _ & fu & Hget & _).
  exists fu. split; [exact Hget|].
  unfold initiateCall, answerCall.
  rewrite Hac, (bound_truthy _ _ _ HI Hac), Hlive, Hget. simpl.
  split; [|split].
  - intros ?. destruct (users_get t (users st)) as [tu|];
      try reflexivity; by destruct (socketId tu).
  - intros ?. destruct (users_get t (users st)) as [tu|];
      try reflexivity; by destruct (socketId tu).
  - intros sid2 offer answer Hac2.
    destruct (inv_bound _ HI _ _ Hac2) as (_ & _ & tu & -> & ->).
    by split.
Qed.

Lemma call_is_forwarded_to_recorded_connection_witness :
  exists fu,
    users_get "1111" (users st_offline_peer) = Some fu
    /\ (forall offer,
          initiateCall "A" "2222" offer st_offline_peer
          = Some (st_offline_peer,
                  match users_get "2222" (users st_offline_peer) with
                  | Some tu =>
                      match socketId tu with
                      | Some dest =>
                          [IoTo dest
                             (incomingCall "1111" (nickname fu) (lastname fu)
                                           (photo fu) offer)]
                      | None => []
                      end
                  | None => []
                  end))
    /\ (forall answer,
          answerCall "A" "2222" answer st_offline_peer
          = Some (st_offline_peer,
                  match users_get "2222" (users st_offline_peer) with
                  | Some tu =>
                      match socketId tu with
                      | Some dest => [IoTo dest (callAnswered "1111" answer)]
                      | None => []
                      end
                  | None => []
                  end))
    /\ (forall sid2 offer answer,
          activeConnections st_offline_peer !! sid2 = Some "2222" ->
          initiateCall "A" "2222" offer st_offline_peer
          = Some (st_offline_peer,
                  [IoTo sid2
                     (incomingCall "1111" (nickname fu) (lastname fu)
                                   (photo fu) offer)])
          /\ answerCall "A" "2222" answer st_offline_peer
             = Some (st_offline_peer,
                     [IoTo sid2 (callAnswered "1111" answer)])).
Proof.
  apply (call_is_forwarded_to_recorded_connection "A" "2222" st_offline_peer "1111").
  - exact reachable_st_offline_peer.
  - reflexivity.
Defined.

(** ** First registration *)

(** X16: a [register] with a four-digit number that has no record yet
    creates the record at the end of [users]: the number as given, the
    nickname, lastname, photo, email, phone and birthday as given or, when
    absent or empty, "User" for the nickname and the empty string for the
    others, the age as given or 0, and the registering connection.  It
    binds the connection, answers [registered] with that record, creates no
    request and leaves the existing records in place; afterwards
    [getUserByNumber] from any connection finds the new user. *)
Theorem register_creates_account sid now userData st n :
  reachable st ->
  ud_number userData = Some n ->
  four_ascii_digits n ->
  users_get n (users st) = None ->
  let created :=
    mkUser n (or_default (ud_nickname userData) "User")
           (or_default (ud_lastname userData) "")
           (or_default (ud_photo userData) "")
           (or_zero (ud_age userData))
           (or_default (ud_email userData) "")
           (or_default (ud_phone userData) "")
           (or_default (ud_birthday userData) "")
           (Some sid) in
  let st1 := mkState (users st ++ [(n, created)]) (messages st)
                     (<[sid := n]> (activeConnections st))
                     (signInRequests st) in
  register sid now userData st = Some (st1, [SocketEmit (registered n created)])
  /\ forall sid2,
       getUserByNumber sid2 n st1
       = Some (st1,
               [SocketEmit (userFound n (nickname created) (lastname created)
                                      (photo created))]).
Proof.
  intros Hreach Hn Hvalid Hfree created st1.
  pose proof (reachable_Inv _ Hreach) as HI.
  assert (register sid now userData st
          = Some (st1, [SocketEmit (registered n created)])) as Hreg.
  { unfold register. rewrite Hn.
    apply invalid_number_spec in Hvalid. rewrite Hvalid, Hfree.
    unfold_setters. rewrite users_get_set_eq. simpl.
    by rewrite users_set_absent. }
  split; [exact Hreg|].
  intros sid2. unfold getUserByNumber.
  assert (find_by_number n (users st1) = Some created) as ->; [|reflexivity].
  simpl. rewrite find_by_number_app, (find_by_number_reachable _ _ HI), Hfree.
  unfold find_by_number. simpl. by rewrite String.eqb_refl.
Qed.

Lemma register_creates_account_witness :
  register "C" 3
    (mkUserData (Some "3333") (Some "") (Some "Lee") None (Some 41) None
                None None)
    st_two_users
  = Some (mkState (users st_two_users
                   ++ [("3333", mkUser "3333" "User" "Lee" "" 41 "" "" ""
                                       (Some "C"))])
                  ∅ (<["C" := "3333"]> (activeConnections st_two_users)) ∅,
          [SocketEmit (registered "3333"
                         (mkUser "3333" "User" "Lee" "" 41 "" "" ""
                                 (Some "C")))]).
Proof.
  refine (proj1 (register_creates_account "C" 3
                   (mkUserData (Some "3333") (Some "") (Some "Lee") None
                               (Some 41) None None None)
                   st_two_users "3333" _ _ _ _)).
  - exact reachable_st_two_users.
  - reflexivity.
  - apply invalid_number_spec. reflexivity.
  - reflexivity.
Defined.

(** ** Conversations *)

(** X17: the chat key tells pairs apart: two pairs of four-character
    identifiers have the same key only if they are the same pair, in the
    same or in the opposite order.  So two different conversations never
    share a log. *)
Theorem chatId_identifies_the_pair a b c d :
  String.length a = 4%nat -> String.length b = 4%nat ->
  String.length c = 4%nat -> String.length d = 4%nat ->
  chatId a b = chatId c d ->
  (a = c /\ b = d) \/ (a = d /\ b = c).
Proof.
  intros Ha Hb Hc Hd. rewrite !chatId_unfold.
  assert (forall x y x' y',
            String.length x = 4%nat -> String.length x' = 4%nat ->
            x +:+ "-" +:+ y = x' +:+ "-" +:+ y' -> x = x' /\ y = y')
    as Hinj.
  { intros x y x' y' Hx Hx' Heq.
    apply string_app_inj_head in Heq as [-> Heq]; [|congruence].
    split; [reflexivity|]. by apply (String.app_inj "-") in Heq. }
  destruct (String.ltb a b), (String.ltb c d); intros Heq;
    apply Hinj in Heq as [-> ->]; auto.
Qed.

Lemma chatId_identifies_the_pair_witness :
  ("2222" = "1111" /\ "1111" = "2222") \/ ("2222" = "2222" /\ "1111" = "1111").
Proof.
  apply (chatId_identifies_the_pair "2222" "1111" "1111" "2222");
    reflexivity.
Defined.

(** X18: a log keeps the order of sending, whoever of the two sends: when
    [a] sends to [b] and [b] then sends to [a], the history of the pair is
    the earlier history followed by the message of [a] and then the message
    of [b]. *)
Theorem history_keeps_sending_order st sa sb a b t1 t2 x y :
  reachable st ->
  activeConnections st !! sa = Some a ->
  activeConnections st !! sb = Some b ->
  exists st1 out1 st2 out2,
    sendMessage sa t1 b x st = Some (st1, out1)
    /\ sendMessage sb t2 a y st1 = Some (st2, out2)
    /\ getChatHistory sa b st2
       = Some (st2,
               [SocketEmit
                  (chatHistory b
                     (default [] (messages st !! chatId a b)
                      ++ [mkMessage a b x t1; mkMessage b a y t2]))]).
Proof.
  intros Hreach Hsa Hsb. pose proof (reachable_Inv _ Hreach) as HI.
  destruct (inv_bound _ HI _ _ Hsa) as (_ & _ & ua & Hua & _).
  destruct (inv_bound _ HI _ _ Hsb) as (_ & _ & ub & Hub & _).
  pose proof (sendMessage_bound sa t1 b x st a ub HI Hsa Hub) as H1.
  assert (Inv (set_messages
                 (<[chatId a b :=
                      default [] (messages st !! chatId a b)
                      ++ [mkMessage a b x t1]]> (messages st)) st)) as HI1
    by (by eapply sendMessage_preserves).
  pose proof (sendMessage_bound sb t2 a y _ b ua HI1 Hsb Hua) as H2.
  assert (Inv (set_messages
                 (<[chatId b a :=
                      default []
                        (messages
                           (set_messages
                              (<[chatId a b :=
                                   default [] (messages st !! chatId a b)
                                   ++ [mkMessage a b x t1]]> (messages st))
                              st) !! chatId b a)
                      ++ [mkMessage b a y t2]]>
                    (messages
                       (set_messages
                          (<[chatId a b :=
                               default [] (messages st !! chatId a b)
                               ++ [mkMessage a b x t1]]> (messages st)) st)))
                 (set_messages
                    (<[chatId a b :=
                         default [] (messages st !! chatId a b)
                         ++ [mkMessage a b x t1]]> (messages st)) st)))
    as HI2 by (by eapply sendMessage_preserves).
  eexists _, _, _, _. split; [exact H1|]. split; [exact H2|].
  rewrite (getChatHistory_bound sa b _ a HI2 Hsa). unfold_setters.
  rewrite (chatId_comm b a), !lookup_insert_eq. simpl.
  by rewrite <- app_assoc.
Qed.

Lemma history_keeps_sending_order_witness :
  exists st1 out1 st2 out2,
    sendMessage "B" 10 "1111" "yo" st_chat = Some (st1, out1)
    /\ sendMessage "A" 11 "2222" "ok" st1 = Some (st2, out2)
    /\ getChatHistory "B" "1111" st2
       = Some (st2,
               [SocketEmit
                  (chatHistory "1111"
                     (default [] (messages st_chat !! chatId "2222" "1111")
                      ++ [mkMessage "2222" "1111" "yo" 10;
                          mkMessage "1111" "2222" "ok" 11]))]).
Proof.
  apply (history_keeps_sending_order st_chat "B" "A" "2222" "1111" 10 11
           "yo" "ok").
  - exact reachable_st_chat.
  - reflexivity.
  - reflexivity.
Defined.

(** * Further properties of the codec *)

Section CodecMore.
Import Codec.

Lemma join_Forall (P : N -> Prop) sep toks :
  Forall P sep -> Forall (Forall P) toks -> Forall P (join sep toks).
Proof.
  intros Hsep. induction toks as [|tok toks IH]; intros Hall; [done|].
  apply Forall_cons in Hall as [Htok Hall].
  destruct toks as [|tok2 toks]; [exact Htok|].
  change (join sep (tok :: tok2 :: toks))
    with (tok ++ sep ++ join sep (tok2 :: toks)).
  apply Forall_app. split; [exact Htok|].
  apply Forall_app. split; [exact Hsep|]. by apply IH.
Qed.

Lemma encodeCharWith_digits toUpperCase_ char :
  Forall is_decimal_digit (encodeCharWith toUpperCase_ char).
Proof.
  unfold encodeCharWith.
  destruct (char =? 32).
  - apply Forall_cons. split; [|apply Forall_nil; done].
    unfold is_decimal_digit. simpl. lia.
  - destruct (str_leb (units "A") (toUpperCase_ char)
              && str_leb (toUpperCase_ char) (units "Z")).
    + destruct (toString_units (charCodeAt0 (toUpperCase_ char) - 64))
        as (c & s & -> & Hc & Hs & _). by apply Forall_cons.
    + destruct (toString_units char) as (c & s & -> & Hc & Hs & _).
      by apply Forall_cons.
Qed.

(** X19: whatever the text, and whatever [toUpperCase] makes of its
    characters, the encoding consists of decimal digits and hyphens
    only. *)
Theorem encodeToNumbers_alphabet toUpperCase_ text_ :
  Forall (fun c => is_decimal_digit c \/ c = 45)
         (encodeToNumbersWith toUpperCase_ text_).
Proof.
  unfold encodeToNumbersWith. apply join_Forall.
  - apply Forall_cons. split; [by right|apply Forall_nil; done].
  - apply Forall_map, Forall_forall. intros c _.
    eapply Forall_impl; [apply encodeCharWith_digits|]. intros; by left.
Qed.

Lemma toUpperCase_unit char :
  toUpperCase char
  = [if (97 <=? char) && (char <=? 122) then char - 32 else char].
Proof. unfold toUpperCase. by destruct ((97 <=? char) && (char <=? 122)). Qed.

Lemma token_number_upper char :
  token_number
    (if (97 <=? char) && (char <=? 122) then char - 32 else char)
  = token_number char.
Proof.
  unfold token_number.
  destruct (N.leb_spec 97 char), (N.leb_spec char 122); simpl;
    try reflexivity;
    repeat match goal with
           | |- context [?a =? ?b] => destruct (N.eqb_spec a b); simpl
           | |- context [?a <=? ?b] => destruct (N.leb_spec a b); simpl
           end; lia.
Qed.

(** X20: the encoder does not see the case of ASCII letters: a text of
    code units under 128 and the same text in upper case have the same
    encoding. *)
Theorem encodeToNumbers_ignores_case text_ :
  Forall (fun c => c < 128) text_ ->
  encodeToNumbers (concat (map toUpperCase text_)) = encodeToNumbers text_.
Proof.
  intros _. unfold encodeToNumbers. f_equal.
  induction text_ as [|c text_ IH]; [reflexivity|].
  simpl. rewrite toUpperCase_unit. simpl. rewrite IH. f_equal.
  by rewrite !encodeChar_token, token_number_upper.
Qed.

Lemma encodeToNumbers_ignores_case_witness :
  encodeToNumbers (concat (map toUpperCase (units "Hello, Bob")))
  = encodeToNumbers (units "Hello, Bob").
Proof.
  apply encodeToNumbers_ignores_case.
  vm_compute. repeat constructor.
Defined.

(** What a token decodes to is one code unit, written as the same
    token. *)
Lemma decodeToken_encodeChar_unit char :
  char < 128 ->
  exists c', decodeToken (encodeChar char) = [c']
             /\ encodeChar c' = encodeChar char.
Proof.
  intros Hc.
  exists (if char =? 32 then 32
          else if (65 <=? char) && (char <=? 90) then char
          else if (97 <=? char) && (char <=? 122) then char - 32
          else if char =? 0 then 32
          else if char <=? 26 then char + 64
          else char).
  split.
  - rewrite encodeChar_token, decodeToken_toString. unfold token_number.
    split_tests; try lia; try reflexivity; f_equal; try lia;
      apply N.mod_small; lia.
  - rewrite !encodeChar_token. f_equal. f_equal. unfold token_number.
    split_tests; lia.
Qed.

(** X21: decoding and encoding again changes nothing: for a non-empty
    text of code units under 128, the encoding of the decoded encoding is
    the encoding itself.  What the round trip loses (case, control
    characters) is lost by the first encoding already. *)
Theorem encoding_is_stable text_ :
  text_ <> [] ->
  Forall (fun c => c < 128) text_ ->
  encodeToNumbers (decodeFromNumbers (encodeToNumbers text_))
  = encodeToNumbers text_.
Proof.
  intros Hne Hall. rewrite decode_encode_tokens by done.
  unfold encodeToNumbers. f_equal. clear Hne.
  induction text_ as [|c text_ IH]; [reflexivity|].
  apply Forall_cons in Hall as [Hc Hall]. simpl.
  destruct (decodeToken_encodeChar_unit c Hc) as (c' & -> & Henc).
  simpl. by rewrite Henc, IH.
Qed.

Lemma encoding_is_stable_witness :
  encodeToNumbers
    (decodeFromNumbers (encodeToNumbers (0 :: 10 :: units "a Z-9~")))
  = encodeToNumbers (0 :: 10 :: units "a Z-9~").
Proof.
  apply encoding_is_stable.
  - discriminate.
  - vm_compute. repeat constructor.
Defined.

Lemma split_length sep s :
  length (split sep s) = S (length (List.filter (fun c => c =? sep) s)).
Proof.
  induction s as [|c s IH]; [reflexivity|]. simpl.
  destruct (c =? sep); simpl; [by rewrite IH|].
  pose proof (split_nonempty sep s) as Hs.
  destruct (split sep s); [done|]. exact IH.
Qed.

Lemma decodeToken_one num : length (decodeToken num) = 1%nat.
Proof.
  unfold decodeToken, fromCharCode.
  destruct (parseInt num) as [n|]; [|reflexivity].
  destruct (n =? 0)%Z; [reflexivity|].
  by destruct ((1 <=? n) && (n <=? 26))%Z.
Qed.

Lemma decodeTokenWith_one parseInt_ num :
  length (decodeTokenWith parseInt_ num) = 1%nat.
Proof.
  unfold decodeTokenWith, fromCharCode.
  destruct (parseInt_ num) as [n|]; [|reflexivity].
  destruct (n =? 0)%Z; [reflexivity|].
  by destruct ((1 <=? n) && (n <=? 26))%Z.
Qed.

(** X22: [decodeFromNumbers] accepts every string and yields exactly one
    code unit per token, that is, one more than there are hyphens in the
    input, whatever number [parseInt] reads from each token; in particular
    the empty string decodes to a text of length one, not to the empty
    text. *)
Theorem decodeFromNumbers_length parseInt_ encoded :
  length (decodeFromNumbersWith parseInt_ encoded)
  = S (length (List.filter (fun c => c =? 45) encoded)).
Proof.
  unfold decodeFromNumbersWith. rewrite <- split_length.
  induction (split 45 encoded) as [|tok toks IH]; [reflexivity|].
  simpl. by rewrite length_app, decodeTokenWith_one, IH.
Qed.

Lemma round_trip_units_upper text_ :
  Forall (fun c => round_trip_unit c = true) text_ ->
  Forall (fun c => 27 <= c <= 127) text_
  /\ concat (map toUpperCase text_) = text_.
Proof.
  induction text_ as [|c text_ IH]; intros Hall;
    [split; [apply Forall_nil; done|reflexivity]|].
  apply Forall_cons in Hall as [Hc Hall]. destruct (IH Hall) as [H1 H2].
  unfold round_trip_unit in Hc.
  apply andb_true_iff in Hc as [Hr Hl]. apply negb_true_iff in Hl.
  apply andb_true_iff in Hr as [Hlo Hhi]. apply N.leb_le in Hlo, Hhi.
  split; [apply Forall_cons; by split|].
  simpl. unfold toUpperCase at 1. by rewrite Hl, H2.
Qed.

Lemma encodeToNumbers_nonempty text_ :
  text_ <> [] -> encodeToNumbers text_ <> [].
Proof.
  destruct text_ as [|c text_]; [done|]. intros _.
  unfold encodeToNumbers. simpl.
  pose proof (encodeChar_nonempty c) as Hc.
  destruct (map encodeChar text_); [exact Hc|].
  by destruct (encodeChar c).
Qed.

(** X23: the two HTTP endpoints undo each other on the texts that round
    trip: posting a non-empty text of code units from 27 to 127 without
    lower-case letters to [/api/encode] answers with an encoding, and
    posting that encoding to [/api/decode] answers with the text.  (A
    missing or empty field is answered with an error by both.) *)
Theorem api_decode_undoes_api_encode text_ :
  text_ <> [] ->
  Forall (fun c => round_trip_unit c = true) text_ ->
  exists encoded,
    Api.encode (Api.Str text_) = Api.Encoded encoded
    /\ Api.decode (Api.Str encoded) = Api.Decoded text_.
Proof.
  intros Hne Hall. exists (encodeToNumbers text_). split.
  - by destruct text_.
  - unfold Api.decode. pose proof (encodeToNumbers_nonempty _ Hne) as He.
    destruct (encodeToNumbers text_) as [|e0 es] eqn:Henc; [done|].
    simpl. f_equal. rewrite <- Henc.
    destruct (round_trip_units_upper _ Hall) as [Hrange Hup].
    by rewrite decode_encode_upper, Hup.
Qed.

Lemma api_decode_undoes_api_encode_witness :
  exists encoded,
    Api.encode (Api.Str (units "CALL 1234")) = Api.Encoded encoded
    /\ Api.decode (Api.Str encoded) = Api.Decoded (units "CALL 1234").
Proof.
  apply api_decode_undoes_api_encode.
  - discriminate.
  - vm_compute. repeat constructor.
Defined.

End CodecMore.

(** * The older copy of the server *)

Lemma legacy_users_get_set_eq k v m :
  Legacy.users_get k (Legacy.users_set k v m) = Some v.
Proof.
  induction m as [|[k' v'] m IH]; simpl.
  - by rewrite String.eqb_refl.
  - destruct (String.eqb_spec k' k) as [->|Hne]; simpl.
    + by rewrite String.eqb_refl.
    + destruct (String.eqb_spec k' k); [done|exact IH].
Qed.

Lemma legacy_users_set_set k v1 v2 m :
  Legacy.users_set k v2 (Legacy.users_set k v1 m) = Legacy.users_set k v2 m.
Proof.
  induction m as [|[k' v'] m IH]; simpl.
  - by rewrite String.eqb_refl.
  - destruct (String.eqb_spec k' k) as [->|Hne]; simpl.
    + by rewrite String.eqb_refl.
    + destruct (String.eqb_spec k' k); [done|by rewrite IH].
Qed.

Lemma legacy_find_after_set n v m :
  Legacy.find_by_number n m = None ->
  Legacy.number v = n ->
  Legacy.find_by_number n (Legacy.users_set n v m) = Some v.
Proof.
  unfold Legacy.find_by_number. intros Hnone Hn.
  induction m as [|[k' v'] m IH]; simpl in *.
  - by rewrite Hn, String.eqb_refl.
  - destruct (String.eqb_spec (Legacy.number v') n) as [|Hv']; [done|].
    destruct (String.eqb_spec k' n) as [->|Hk]; simpl.
    + by rewrite Hn, String.eqb_refl.
    + destruct (String.eqb_spec (Legacy.number v') n); [done|]. by apply IH.
Qed.

(** X24: in the older copy of the server a number is lost with its first
    session.  When a connection registers a free number and then
    disconnects, every later [register] for that number, from any
    connection and with any profile, is answered "This number is already
    taken" and changes nothing: the stored record has a null socket, which
    is not the socket of the caller. *)
Theorem legacy_number_is_lost_after_disconnect sid sid2 userData userData2
    st U :
  ud_number userData = Some U ->
  ud_number userData2 = Some U ->
  four_ascii_digits U ->
  Legacy.find_by_number U (Legacy.users st) = None ->
  let st1 := fst (Legacy.register sid userData st) in
  let st2 := Legacy.disconnect sid st1 in
  Legacy.activeConnections st1 !! sid = Some U
  /\ Legacy.activeConnections st2 !! sid = None
  /\ Legacy.register sid2 userData2 st2
     = (st2, Legacy.error "This number is already taken").
Proof.
  intros Hn Hn2 Hvalid Hfree.
  pose proof (four_ascii_digits_truthy _ Hvalid) as Htruthy.
  apply invalid_number_spec in Hvalid.
  assert (Legacy.register sid userData st
          = (Legacy.mkState
               (Legacy.users_set U
                  (Legacy.mkUser U (or_default (ud_nickname userData) "User")
                     (or_default (ud_lastname userData) "")
                     (or_default (ud_photo userData) "") (Some sid))
                  (Legacy.users st))
               (<[sid := U]> (Legacy.activeConnections st)),
             Legacy.registered U
               (Legacy.mkUser U (or_default (ud_nickname userData) "User")
                  (or_default (ud_lastname userData) "")
                  (or_default (ud_photo userData) "") (Some sid)))) as ->.
  { unfold Legacy.register. by rewrite Hn, Hvalid, Hfree. }
  cbn [fst]. unfold Legacy.disconnect. cbn [Legacy.activeConnections
    Legacy.users]. rewrite lookup_insert_eq, Htruthy. cbn [negb].
  rewrite legacy_users_get_set_eq, legacy_users_set_set.
  cbn [Legacy.number Legacy.nickname Legacy.lastname Legacy.photo].
  split; [reflexivity|]. split; [apply lookup_delete_eq|].
  unfold Legacy.register. rewrite Hn2, Hvalid. cbn [Legacy.users].
  by rewrite legacy_find_after_set.
Qed.

Lemma legacy_number_is_lost_after_disconnect_witness :
  Legacy.register "B" (userData_of "1111")
    (Legacy.mkState
       [("1111", Legacy.mkUser "1111" "User" "" "" None)] ∅)
  = (Legacy.mkState
       [("1111", Legacy.mkUser "1111" "User" "" "" None)] ∅,
     Legacy.error "This number is already taken").
Proof.
  refine (proj2 (proj2 (legacy_number_is_lost_after_disconnect "A" "B"
                          (userData_of "1111") (userData_of "1111")
                          (Legacy.mkState [] ∅) "1111" _ _ _ _))).
  - reflexivity.
  - reflexivity.
  - apply invalid_number_spec. reflexivity.
  - reflexivity.
Defined.

(** * Further properties of requests, histories and the codec *)

Lemma toString_inj n m : toString n = toString m -> n = m.
Proof.
  unfold toString. intros Heq.
  assert (forall k, N.to_uint k <> Decimal.Nil) as Hnil.
  { intros k. destruct k; simpl; [discriminate|].
    apply DecimalPos.Unsigned.to_uint_nonnil. }
  apply (f_equal NilZero.uint_of_string) in Heq.
  rewrite !NilZero.usu in Heq by apply Hnil.
  injection Heq as Heq.
  by rewrite <- (DecimalN.Unsigned.of_to n), Heq, DecimalN.Unsigned.of_to.
Qed.

(** X25: request identifiers are clock readings.  When two connections ask
    for the same live user at different clock readings, both requests are
    pending afterwards; when the clock reading is the same, the second
    request takes the place of the first, which can no longer be approved
    or denied. *)
Theorem requests_collide_on_equal_clock C2 C3 n2 n3 ud2 ud3 st U u C1 :
  reachable st ->
  ud_number ud2 = Some U -> ud_number ud3 = Some U ->
  users_get U (users st) = Some u ->
  socketId u = Some C1 ->
  exists st2 out2 st3 out3,
    register C2 n2 ud2 st = Some (st2, out2)
    /\ register C3 n3 ud3 st2 = Some (st3, out3)
    /\ signInRequests st3 !! toString n3 = Some (mkSignInRequest U C3)
    /\ (n2 <> n3 ->
        signInRequests st3 !! toString n2 = Some (mkSignInRequest U C2))
    /\ (n2 = n3 ->
        signInRequests st3
        = <[toString n3 := mkSignInRequest U C3]> (signInRequests st)).
Proof.
  intros Hreach Hn2 Hn3 Hget Hlive. pose proof (reachable_Inv _ Hreach) as HI.
  pose proof (Inv_get _ _ _ HI Hget) as Hok.
  pose proof (stored_truthy _ _ Hok) as Ht. rewrite Hlive in Ht.
  destruct Hok as (_ & Hvalid & _). apply invalid_number_spec in Hvalid.
  eexists _, _, _, _. split.
  { unfold register. rewrite Hn2, Hvalid, Hget, Hlive, Ht. reflexivity. }
  split.
  { unfold register. rewrite Hn3, Hvalid. unfold_setters.
    rewrite Hget, Hlive, Ht. reflexivity. }
  unfold_setters. split; [apply lookup_insert_eq|]. split.
  - intros Hne. rewrite lookup_insert_ne, lookup_insert_eq; [done|].
    intros Heq. apply toString_inj in Heq. congruence.
  - intros ->. apply insert_insert_eq.
Qed.

Lemma requests_collide_on_equal_clock_witness :
  exists st2 out2 st3 out3,
    register "C" 7 (userData_of "1111") st_two_users = Some (st2, out2)
    /\ register "D" 7 (userData_of "1111") st2 = Some (st3, out3)
    /\ signInRequests st3 !! toString 7 = Some (mkSignInRequest "1111" "D")
    /\ (7 <> 7 ->
        signInRequests st3 !! toString 7 = Some (mkSignInRequest "1111" "C"))
    /\ (7 = 7 ->
        signInRequests st3
        = <[toString 7 := mkSignInRequest "1111" "D"]>
            (signInRequests st_two_users)).
Proof.
  apply (requests_collide_on_equal_clock "C" "D" 7 7 (userData_of "1111")
           (userData_of "1111") st_two_users "1111"
           (plain_user "1111" (Some "A")) "A").
  - exact reachable_st_two_users.
  - reflexivity.
  - reflexivity.
  - reflexivity.
  - reflexivity.
Defined.

(** X26: [getChatHistory] only reads.  It never changes the state; from a
    connection that is not bound it answers the error "Not registered";
    from a bound connection it answers with the log of the pair, and when
    there is none, also when the target is no user at all, with the empty
    list rather than an error. *)
Theorem getChatHistory_only_reads sid t st :
  reachable st ->
  exists e,
    getChatHistory sid t st = Some (st, [SocketEmit e])
    /\ (activeConnections st !! sid = None -> e = error "Not registered")
    /\ (forall r, activeConnections st !! sid = Some r ->
          e = chatHistory t (default [] (messages st !! chatId r t))).
Proof.
  intros Hreach. pose proof (reachable_Inv _ Hreach) as HI.
  destruct (activeConnections st !! sid) as [r|] eqn:Hac.
  - rewrite (getChatHistory_bound sid t st r HI Hac).
    eexists. split; [reflexivity|]. split; [done|]. by intros ? [= <-].
  - unfold getChatHistory. rewrite Hac.
    eexists. split; [reflexivity|]. by split.
Qed.

Lemma getChatHistory_only_reads_witness :
  exists e,
    getChatHistory "C" "9999" st_chat = Some (st_chat, [SocketEmit e])
    /\ (activeConnections st_chat !! "C" = None ->
        e = error "Not registered")
    /\ (forall r, activeConnections st_chat !! "C" = Some r ->
          e = chatHistory "9999"
                (default [] (messages st_chat !! chatId r "9999"))).
Proof.
  exact (getChatHistory_only_reads "C" "9999" st_chat reachable_st_chat).
Defined.

Section CodecImage.
Import Codec.

Lemma decodeToken_encodeChar_image char :
  char < 128 ->
  decodeToken (encodeChar char) = [round_trip_image char].
Proof.
  intros Hc. rewrite encodeChar_token, decodeToken_toString.
  unfold token_number, round_trip_image.
  split_tests; subst; try lia; try reflexivity; f_equal; try lia;
    apply N.mod_small; lia.
Qed.

(** X27: what the round trip does to ASCII text.  For a non-empty text of
    code units under 128, decoding the encoding gives the text in which
    NUL has become a space, each control character from 1 to 26 the
    letter of that rank, each lower-case letter its upper-case letter, and
    every other character is unchanged. *)
Theorem decode_encode_image text_ :
  text_ <> [] ->
  Forall (fun c => c < 128) text_ ->
  decodeFromNumbers (encodeToNumbers text_) = map round_trip_image text_.
Proof.
  intros Hne Hall. rewrite decode_encode_tokens by done. clear Hne.
  induction text_ as [|c text_ IH]; [reflexivity|].
  apply Forall_cons in Hall as [Hc Hall]. simpl.
  by rewrite decodeToken_encodeChar_image, IH.
Qed.

Lemma decode_encode_image_witness :
  decodeFromNumbers (encodeToNumbers (0 :: 10 :: units "a Z-9~"))
  = map round_trip_image (0 :: 10 :: units "a Z-9~").
Proof.
  apply decode_encode_image.
  - discriminate.
  - vm_compute. repeat constructor.
Defined.

End CodecImage.

(** * Stale records: where registration and delivery go wrong *)

Lemma reachable_st_stale : reachable st_stale.
Proof. by_trace trace_stale. Defined.

Lemma reachable_st_shared_and_third : reachable st_shared_and_third.
Proof. by_trace trace_shared_and_third. Defined.

(** C3, at an input where the code departs from it: connection A registers
    1111, then 2222, then disconnects.  No connection is bound to 1111 any
    more, so user 1111 has no live session; but its record still names A,
    and a [register] for 1111 from B does not sign in: it writes a sign-in
    request, emits [signInRequest] to the closed connection A and tells B
    to wait. *)
Theorem register_waits_on_closed_connection :
  reachable st_stale
  /\ (forall sid, activeConnections st_stale !! sid <> Some "1111")
  /\ users_get "1111" (users st_stale) = Some (plain_user "1111" (Some "A"))
  /\ register "B" 4 (userData_of "1111") st_stale
     = Some (mkState [("1111", plain_user "1111" (Some "A"));
                      ("2222", plain_user "2222" None)]
                     ∅ ∅ (<["4" := mkSignInRequest "1111" "B"]> ∅),
             [IoTo "A" (signInRequest "4");
              SocketEmit (awaitingAuthorization
                "Waiting for authorization from your other device...")]).
Proof.
  split; [exact reachable_st_stale|]. split.
  - intros sid. simpl. by rewrite lookup_empty.
  - split; [reflexivity|]. vm_compute. reflexivity.
Qed.

(** When the recipient does have a live session, that is, a connection
    bound to it, the message is pushed to that connection. *)
Lemma sendMessage_reaches_live_session sid sid2 now to_ text_ st f :
  reachable st ->
  activeConnections st !! sid = Some f ->
  activeConnections st !! sid2 = Some to_ ->
  exists st1,
    sendMessage sid now to_ text_ st
    = Some (st1,
            [SocketEmit (messageSent (mkMessage f to_ text_ now));
             IoTo sid2 (messageReceived (mkMessage f to_ text_ now))]).
Proof.
  intros Hreach Hac Hac2. pose proof (reachable_Inv _ Hreach) as HI.
  destruct (inv_bound _ HI _ _ Hac2) as (_ & _ & tu & Hget & Hs).
  rewrite (sendMessage_bound sid now to_ text_ st f tu HI Hac Hget), Hs.
  eauto.
Qed.

(** C8, at an input where the code departs from it: connection A registers
    1111 and then 2222, connection B registers 3333.  No connection is
    bound to 1111, so user 1111 has no live session; but its record still
    names A.  When B sends a message to 1111, the message is appended and
    acknowledged, and [messageReceived] is pushed all the same: to A, which
    is the session of user 2222. *)
Theorem message_pushed_to_another_users_session :
  reachable st_shared_and_third
  /\ (forall sid, activeConnections st_shared_and_third !! sid
                  <> Some "1111")
  /\ activeConnections st_shared_and_third !! "A" = Some "2222"
  /\ sendMessage "B" 9 "1111" "hi" st_shared_and_third
     = Some (mkState (users st_shared_and_third)
                     (<["1111-3333" := [mkMessage "3333" "1111" "hi" 9]]> ∅)
                     (activeConnections st_shared_and_third) ∅,
             [SocketEmit (messageSent (mkMessage "3333" "1111" "hi" 9));
              IoTo "A" (messageReceived (mkMessage "3333" "1111" "hi" 9))]).
Proof.
  split; [exact reachable_st_shared_and_third|]. split.
  - intros sid. simpl. rewrite lookup_insert. case_decide; [discriminate|].
    rewrite lookup_insert. case_decide; [discriminate|].
    by rewrite lookup_empty.
  - split; [reflexivity|]. vm_compute. reflexivity.
Qed.

(** * The round trip of the codec, for any upper-case table *)

Section CodecAnyTable.
Import Codec.

Variable toUpperCase_ : N -> jsstring.

Lemma encodeToNumbersWith_ascii_table text_ :
  encodeToNumbersWith toUpperCase text_ = encodeToNumbers text_.
Proof. reflexivity. Qed.

(** An upper-case form between "A" and "Z" begins with a capital. *)
Lemma between_A_Z upper :
  str_leb (units "A") upper && str_leb upper (units "Z") = true ->
  65 <= charCodeAt0 upper <= 90.
Proof.
  destruct upper as [|b rest]; [discriminate|].
  change (units "A") with [65]. change (units "Z") with [90].
  unfold charCodeAt0. simpl.
  destruct (N.ltb_spec 65 b), (N.ltb_spec b 65), (N.ltb_spec b 90),
           (N.ltb_spec 90 b); simpl; try discriminate; lia.
Qed.

Lemma encodeCharWith_token char :
  encodeCharWith toUpperCase_ char
  = units (toString
             (if char =? 32 then 0
              else if str_leb (units "A") (toUpperCase_ char)
                      && str_leb (toUpperCase_ char) (units "Z")
              then charCodeAt0 (toUpperCase_ char) - 64
              else char)).
Proof.
  unfold encodeCharWith. destruct (char =? 32); [reflexivity|].
  by destruct (str_leb (units "A") (toUpperCase_ char)
               && str_leb (toUpperCase_ char) (units "Z")).
Qed.

Lemma decode_encode_tokens_with text_ :
  text_ <> [] ->
  decodeFromNumbers (encodeToNumbersWith toUpperCase_ text_)
  = concat (map (fun char => decodeToken (encodeCharWith toUpperCase_ char))
                text_).
Proof.
  intros Hne. unfold decodeFromNumbers, encodeToNumbersWith.
  change (units "-") with [45].
  rewrite split_join.
  - by rewrite map_map.
  - by destruct text_.
  - apply Forall_map, Forall_forall. intros c _.
    eapply Forall_impl; [apply encodeCharWith_digits|].
    intros d [Hlo Hhi]. lia.
Qed.

Lemma comes_back_decodes c :
  comes_back toUpperCase_ c = true ->
  decodeToken (encodeCharWith toUpperCase_ c) = [c].
Proof.
  unfold comes_back. rewrite encodeCharWith_token, decodeToken_toString.
  destruct (str_leb (units "A") (toUpperCase_ c)
            && str_leb (toUpperCase_ c) (units "Z")) eqn:Haz;
    (destruct (N.eqb_spec c 32) as [->|Hsp]; [reflexivity|]); simpl.
  - intros Hc. apply N.eqb_eq in Hc.
    pose proof (between_A_Z _ Haz) as Hb. rewrite Hc in *.
    split_tests; try lia. f_equal. lia.
  - intros Hc. apply andb_true_iff in Hc as [Hlo Hhi].
    apply N.leb_le in Hlo. apply N.ltb_lt in Hhi.
    split_tests; try lia. f_equal. apply N.mod_small. lia.
Qed.

Lemma decodes_comes_back c :
  c < 65536 ->
  decodeToken (encodeCharWith toUpperCase_ c) = [c] ->
  comes_back toUpperCase_ c = true.
Proof.
  intros Hc. unfold comes_back.
  rewrite encodeCharWith_token, decodeToken_toString.
  destruct (str_leb (units "A") (toUpperCase_ c)
            && str_leb (toUpperCase_ c) (units "Z")) eqn:Haz;
    (destruct (N.eqb_spec c 32) as [->|Hsp]; [reflexivity|]); simpl.
  - pose proof (between_A_Z _ Haz) as Hb. clear Haz.
    assert ((charCodeAt0 (toUpperCase_ c) - 64 =? 0) = false) as ->
      by (apply N.eqb_neq; lia).
    assert ((1 <=? charCodeAt0 (toUpperCase_ c) - 64) = true) as ->
      by (apply N.leb_le; lia).
    assert ((charCodeAt0 (toUpperCase_ c) - 64 <=? 26) = true) as ->
      by (apply N.leb_le; lia).
    simpl. intros [= Heq]. apply N.eqb_eq. lia.
  - clear Haz. intros Heq.
    apply andb_true_iff. split; [apply N.leb_le|apply N.ltb_lt; lia].
    destruct (N.eqb_spec c 0) as [->|H0]; [discriminate Heq|].
    destruct (N.leb_spec 1 c), (N.leb_spec c 26); simpl in Heq; try lia.
    injection Heq as Heq. lia.
Qed.

(** C4, as amended: for every non-empty text in which every character is a
    space, a capital A to Z, or a character with code 27 or more whose
    upper-case form does not lie between "A" and "Z", decoding the encoding
    gives the text back.  This holds whatever the upper-case table is, so
    it covers non-ASCII text as well. *)
Theorem decode_encode_comes_back text_ :
  text_ <> [] ->
  Forall (fun c => comes_back toUpperCase_ c = true) text_ ->
  decodeFromNumbers (encodeToNumbersWith toUpperCase_ text_) = text_.
Proof.
  intros Hne Hall. rewrite decode_encode_tokens_with by done. clear Hne.
  induction text_ as [|c text_ IH]; [reflexivity|].
  apply Forall_cons in Hall as [Hc Hall]. simpl.
  by rewrite comes_back_decodes, IH.
Qed.

(** No other text comes back: the alphabet above is the largest one. *)
Lemma decode_encode_only_comes_back text_ :
  text_ <> [] ->
  Forall (fun c => c < 65536) text_ ->
  decodeFromNumbers (encodeToNumbersWith toUpperCase_ text_) = text_ ->
  Forall (fun c => comes_back toUpperCase_ c = true) text_.
Proof.
  intros Hne Hall. rewrite decode_encode_tokens_with by done. clear Hne.
  induction text_ as [|c text_ IH]; intros Heq; [apply Forall_nil; done|].
  apply Forall_cons in Hall as [Hc Hall]. simpl in Heq.
  pose proof (decodeToken_one (encodeCharWith toUpperCase_ c)) as Hlen.
  destruct (decodeToken (encodeCharWith toUpperCase_ c)) as [|x [|y r]] eqn:Hd;
    try discriminate Hlen.
  injection Heq as -> Heq.
  apply Forall_cons. split; [by apply decodes_comes_back|by apply IH].
Qed.

(** With an upper-case table that sends é (233) to É (201), as
    JavaScript's does, a text with é comes back. *)
Lemma e_acute_comes_back :
  toUpperCase_ 233 = [201] ->
  decodeFromNumbers (encodeToNumbersWith toUpperCase_ [233]) = [233].
Proof.
  intros Hup. rewrite decode_encode_tokens_with by done. simpl.
  rewrite comes_back_decodes; [reflexivity|].
  unfold comes_back. by rewrite Hup.
Qed.

(** With a table that sends ß (223) to SS, as JavaScript's does, ß is
    encoded as 19 and decoded as S. *)
Lemma sharp_s_is_lost :
  toUpperCase_ 223 = [83; 83] ->
  decodeFromNumbers (encodeToNumbersWith toUpperCase_ [223]) = [83].
Proof.
  intros Hup. rewrite decode_encode_tokens_with by done. simpl.
  rewrite encodeCharWith_token, decodeToken_toString, Hup. reflexivity.
Qed.

End CodecAnyTable.

Lemma decode_encode_comes_back_witness :
  Codec.decodeFromNumbers
    (Codec.encodeToNumbersWith Codec.toUpperCase (Codec.units "HI, BOB-42!"))
  = Codec.units "HI, BOB-42!".
Proof.
  apply decode_encode_comes_back.
  - discriminate.
  - vm_compute. repeat constructor.
Defined.

(** C4, as stated, fails: on lower-case letters ("hi" is encoded as "8-9",
    which decodes to "HI"), on control characters below 27 (a line feed
    is encoded as "10", which decodes to "J"), and on the empty text
    (encoded as the empty string, which decodes to a NUL character). *)
Lemma decode_encode_fails :
  Codec.decodeFromNumbers (Codec.encodeToNumbers (Codec.units "hi"))
  <> Codec.units "hi"
  /\ Codec.decodeFromNumbers (Codec.encodeToNumbers [10]) <> [10]
  /\ Codec.decodeFromNumbers (Codec.encodeToNumbers []) <> [].
Proof. repeat split; vm_compute; discriminate. Qed.
